(** * NameTrends: ranking and trend selection of [generate.py]

    A shallow embedding of the three core functions of [generate.py]
    ([parse_names], [compute_ranks], [calculate_trending]) together with
    the properties the specification states about them.

    Conventions of the embedding:
    - a Python [int] is a [Z];
    - a Python [str] is a [string], one [ascii] per character, compared
      with [String.compare] (character-wise lexicographic order, the
      order Python's [<] on [str] implements);
    - a Python [dict] is an association list kept in insertion order
      (module [Dict]); a key is stored at most once, assigning to a
      stored key keeps its position;
    - a Python [set] of years is a [gset Z];
    - a raised exception is the [Raise] branch of [result]. *)

From Stdlib Require Import ZArith String Ascii List Permutation Sorted Lia.
From stdpp Require Import base option list gmap strings sorting pretty.

Local Open Scope string_scope.
Local Open Scope Z_scope.
Local Open Scope list_scope.
Local Open Scope stdpp_scope.

(** ** Exceptions *)

Inductive exn : Type :=
| KeyError
| ValueError.

Inductive result (A : Type) : Type :=
| Ok (a : A)
| Raise (e : exn).

Arguments Ok {A} a.
Arguments Raise {A} e.

#[global] Instance result_ret : MRet result := fun A a => Ok a.

#[global] Instance result_bind : MBind result := fun A B k m =>
  match m with
  | Ok a => k a
  | Raise e => Raise e
  end.

Definition from_option {A : Type} (e : exn) (o : option A) : result A :=
  match o with
  | Some a => Ok a
  | None => Raise e
  end.

(** A [for] loop whose body may raise: the state is threaded through the
    elements from left to right and the first exception ends the loop. *)
Fixpoint for_each {A S : Type} (body : S -> A -> result S) (s : S) (l : list A)
  : result S :=
  match l with
  | [] => Ok s
  | a :: l' => s' ← body s a; for_each body s' l'
  end.

(** ** Insertion-ordered dictionaries *)

Module Dict.
Section dict.
Context {K V : Type} `{EqDecision K}.

Definition t : Type := list (K * V).

Definition empty : t := [].

Definition items (d : t) : list (K * V) := d.

Definition keys (d : t) : list K := map fst d.

Fixpoint get (k : K) (d : t) : option V :=
    match d with
    | [] => None
    | (k', v) :: d' => if decide (k = k') then Some v else get k d'
    end.

  (** [d[k] = v]: overwrite in place, or append a new key at the end. *)
Fixpoint set (k : K) (v : V) (d : t) : t :=
    match d with
    | [] => [(k, v)]
    | (k', v') :: d' =>
        if decide (k = k') then (k', v) :: d' else (k', v') :: set k v d'
    end.

Definition mem (k : K) (d : t) : bool :=
    match get k d with Some _ => true | None => false end.

  (** Keys of a Python dict are pairwise distinct. *)
Definition wf (d : t) : Prop := NoDup (keys d).
End dict.
Arguments t : clear implicits.
End Dict.

(** ** Order on strings and on key tuples *)

(** Python's [a < b] on [str]. *)
Definition str_ltb (a b : string) : bool := String.ltb a b.

(** Python's [<] on the key tuple [(-count, name)]: first components
    decide unless they are equal. *)
Definition key2_ltb (a b : Z * string) : bool :=
  (a.1 <? b.1) || ((a.1 =? b.1) && str_ltb a.2 b.2).

(** Python's [<] on the key tuple [(-improvement, rank, name)]. *)
Definition key3_ltb (a b : Z * Z * string) : bool :=
  (a.1.1 <? b.1.1)
  || ((a.1.1 =? b.1.1)
      && ((a.1.2 <? b.1.2) || ((a.1.2 =? b.1.2) && str_ltb a.2 b.2))).

(** A strict total order presented by its boolean [<]. *)
Class StrictTotalOrder {Key : Type} (ltb : Key -> Key -> bool) : Prop := {
  ltb_irrefl : forall a, ltb a a = false;
  ltb_trans : forall a b c, ltb a b = true -> ltb b c = true -> ltb a c = true;
  ltb_connex : forall a b, ltb a b = false -> ltb b a = false -> a = b
}.

(** The lexicographic product of two strict total orders, the way Python
    compares tuples. *)
Definition lex_ltb {K1 K2 : Type} `{EqDecision K1}
    (lt1 : K1 -> K1 -> bool) (lt2 : K2 -> K2 -> bool) (a b : K1 * K2) : bool :=
  lt1 a.1 b.1 || (bool_decide (a.1 = b.1) && lt2 a.2 b.2).


(** ** Stable sorting by a key

    [sorted(l, key=...)] and [list.sort(key=...)] are stable and compare
    keys with [<] only. Insertion from the right, placing an element in
    front of the first one that is not smaller, is such a sort; lemma
    [stable_sort_unique] shows every stable sort returns the same list. *)

Section sorted.
Context {A Key : Type} `{EqDecision Key}.
Context (key : A -> Key) (ltb : Key -> Key -> bool).

Fixpoint insert_by (x : A) (l : list A) : list A :=
    match l with
    | [] => [x]
    | y :: l' =>
        if ltb (key y) (key x) then y :: insert_by x l' else x :: y :: l'
    end.

Definition sorted (l : list A) : list A := foldr insert_by [] l.

  (** [x] may stand before [y]: the key of [y] is not smaller. *)
Definition key_le (x y : A) : Prop := ltb (key y) (key x) = false.

Definition has_key (k : Key) (x : A) : Prop := key x = k.

#[global] Instance has_key_dec k x : Decision (has_key k x).
  Proof. unfold has_key. apply _. Defined.
End sorted.

(** ** The data model *)

(** [years[year][sex][name] = count] *)
Definition YearCountTable : Type := Dict.t Z (Dict.t string (Dict.t string Z)).

(** [ranks[sex][name][year] = rank] *)
Definition RankTable : Type := Dict.t string (Dict.t string (Dict.t Z Z)).

(** The tuple [(name, sex, current_rank, prev_rank, improvement)] that
    [calculate_trending] appends; [tup[0]] is [name], [tup[2]] is
    [current_rank] and [tup[4]] is [improvement]. *)
Record TrendEntry : Type := mkTrend {
  name : string;
  sex : string;
  current_rank : Z;
  prev_rank : Z;
  improvement : Z
}.

#[global] Instance TrendEntry_eq_dec : EqDecision TrendEntry.
Proof. solve_decision. Defined.

Definition count_of (years : YearCountTable) (year : Z) (s n : string)
  : option Z :=
  sex_data ← Dict.get year years; names ← Dict.get s sex_data; Dict.get n names.

Definition rank_of (ranks : RankTable) (s n : string) (year : Z) : option Z :=
  by_name ← Dict.get s ranks; year_ranks ← Dict.get n by_name;
  Dict.get year year_ranks.

(** ** [parse_names] *)

Definition row : Type := list string.

(** The archive as [zipfile.ZipFile] presents it: the members in
    directory order, each with the rows [csv.reader] yields for it. *)
Definition archive : Type := list (string * list row).

Definition namelist (zf : archive) : list string := map fst zf.

(** [zf.open(filename)] reads the member that the archive's name table
    holds for the name, which is the last member so named. *)
Definition zf_open (zf : archive) (filename : string) : result (list row) :=
  from_option KeyError (Dict.get filename (reverse zf)).

Definition startswith (s pre : string) : bool := String.prefix pre s.

Definition endswith (s suf : string) : bool :=
  (String.length suf <=? String.length s)%nat
  && String.eqb
       (substring (String.length s - String.length suf) (String.length suf) s)
       suf.

(** [years[year][sex][name] = count] on the nested [defaultdict]: the
    missing levels are created on the way. *)
Definition store_count (years : YearCountTable) (year : Z) (s n : string)
    (count : Z) : YearCountTable :=
  let sex_data := default Dict.empty (Dict.get year years) in
  let names := default Dict.empty (Dict.get s sex_data) in
  Dict.set year (Dict.set s (Dict.set n count names) sex_data) years.

Section parse_names.
  (** The built-in [int] applied to a [str]: [None] stands for the
      [ValueError] it raises on text that is no integer literal. *)
Variable int : string -> option Z.

Definition parse_row (year : Z) (years : YearCountTable) (r : row)
    : result YearCountTable :=
    match r with
    | [n; s; count] =>
        c ← from_option ValueError (int count);
        Ok (store_count years year s n c)
    | _ => Raise ValueError
    end.

Definition parse_member (zf : archive) (years : YearCountTable)
      (filename : string) : result YearCountTable :=
    if negb (startswith filename "yob") || negb (endswith filename ".txt")
    then Ok years
    else
      year ← from_option ValueError (int (substring 3 4 filename));
      rows ← zf_open zf filename;
      for_each (parse_row year) years rows.

Definition parse_names (zf : archive) : result YearCountTable :=
    for_each (parse_member zf) Dict.empty (namelist zf).
End parse_names.

(** ** [compute_ranks] *)

(** [{"M": defaultdict(dict), "F": defaultdict(dict)}]: the outer level is
    a plain [dict] with these two keys. *)
Definition initial_ranks : RankTable := [("M", Dict.empty); ("F", Dict.empty)].

(** [lambda kv: (-kv[1], kv[0])] *)
Definition count_key (kv : string * Z) : Z * string := (- kv.2, kv.1).

Fixpoint enumerate {A : Type} (start : Z) (l : list A) : list (Z * A) :=
  match l with
  | [] => []
  | a :: l' => (start, a) :: enumerate (start + 1) l'
  end.

(** [ranks[sex][name][year] = rank]: [ranks[sex]] is a lookup in a plain
    [dict], [ranks[sex][name]] one in a [defaultdict]. *)
Definition store_rank (year : Z) (s : string) (ranks : RankTable)
    (e : Z * (string * Z)) : result RankTable :=
  let '(rank, (n, _)) := e in
  by_name ← from_option KeyError (Dict.get s ranks);
  let year_ranks := default Dict.empty (Dict.get n by_name) in
  Ok (Dict.set s (Dict.set n (Dict.set year rank year_ranks) by_name) ranks).

Definition sorted_names (names_counts : Dict.t string Z) : list (string * Z) :=
  sorted count_key key2_ltb (Dict.items names_counts).

Definition rank_group (year : Z) (ranks : RankTable)
    (g : string * Dict.t string Z) : result RankTable :=
  let '(s, names_counts) := g in
  for_each (store_rank year s) ranks (enumerate 1 (sorted_names names_counts)).

Definition rank_year (ranks : RankTable)
    (y : Z * Dict.t string (Dict.t string Z)) : result RankTable :=
  let '(year, sex_data) := y in
  for_each (rank_group year) ranks (Dict.items sex_data).

Definition compute_ranks (years_data : YearCountTable) : result RankTable :=
  for_each rank_year initial_ranks (Dict.items years_data).

(** ** [calculate_trending] *)

Definition all_years (ranks : RankTable) : gset Z :=
  foldl (fun acc '(_, by_name) =>
           foldl (fun acc '(_, year_ranks) =>
                    acc ∪ list_to_set (Dict.keys (V:=Z) year_ranks))
                 acc (Dict.items (K:=string) by_name))
        ∅ (Dict.items (K:=string) ranks).

(** The built-in [max]: [ValueError] on an empty sequence. *)
Definition py_max (l : list Z) : result Z :=
  match l with
  | [] => Raise ValueError
  | y :: l' => Ok (foldl Z.max y l')
  end.

(** [lambda tup: (-(tup[4]), tup[2], tup[0])] *)
Definition trend_key (tup : TrendEntry) : Z * Z * string :=
  (- improvement tup, current_rank tup, name tup).

Definition add_candidate (last_year prev_year : Z) (s : string)
    (trending_list : list TrendEntry) (e : string * Dict.t Z Z)
  : list TrendEntry :=
  let '(n, year_ranks) := e in
  match Dict.get last_year year_ranks, Dict.get prev_year year_ranks with
  | Some current, Some prev =>
      trending_list ++ [mkTrend n s current prev (prev - current)]
  | _, _ => trending_list
  end.

Definition add_sex (last_year prev_year : Z) (ranks : RankTable)
    (trending_list : list TrendEntry) (s : string)
  : result (list TrendEntry) :=
  by_name ← from_option KeyError (Dict.get s ranks);
  Ok (foldl (add_candidate last_year prev_year s) trending_list
        (Dict.items by_name)).

(** The slice [l[:n]]: a negative [n] counts from the end. *)
Definition slice_to {A : Type} (n : Z) (l : list A) : list A :=
  if 0 <=? n then take (Z.to_nat n) l
  else take (Z.to_nat (Z.of_nat (length l) + n)) l.

(** The candidate list as it stands before [trending_list.sort]. *)
Definition trending_candidates (ranks : RankTable) (last_year prev_year : Z)
  : result (list TrendEntry) :=
  for_each (add_sex last_year prev_year ranks) [] ["M"; "F"].

Definition calculate_trending (ranks : RankTable) (top_n : Z)
  : result (list TrendEntry) :=
  let years := all_years ranks in
  if bool_decide (size years < 2)%nat then Ok []
  else
    last_year ← py_max (elements years);
    prev_year ← py_max (filter (fun y => y < last_year) (elements years));
    trending_list ← trending_candidates ranks last_year prev_year;
    Ok (slice_to top_n (sorted trend_key key3_ltb trending_list)).

(** ** Vocabulary of the statements *)

(** A year [y] appears somewhere in the table. *)
Definition year_occurs (ranks : RankTable) (y : Z) : Prop :=
  exists s by_name n year_ranks,
    (s, by_name) ∈ ranks /\ (n, year_ranks) ∈ by_name
    /\ y ∈ Dict.keys year_ranks.

Definition is_last_year (ranks : RankTable) (last_year : Z) : Prop :=
  year_occurs ranks last_year
  /\ forall y, year_occurs ranks y -> y <= last_year.

Definition is_prev_year (ranks : RankTable) (last_year prev_year : Z) : Prop :=
  year_occurs ranks prev_year /\ prev_year < last_year
  /\ forall y, year_occurs ranks y -> y < last_year -> y <= prev_year.

(** The table has the two sexes as its keys, and no name twice under a
    sex. *)
Definition RankTable_wf (ranks : RankTable) : Prop :=
  (forall s, is_Some (Dict.get s ranks) <-> s = "M" \/ s = "F")
  /\ (forall s by_name, Dict.get s ranks = Some by_name -> Dict.wf by_name).

(** Improvement descending, then current rank ascending, then name
    ascending. *)
Definition trend_before (a b : TrendEntry) : Prop :=
  improvement a > improvement b
  \/ (improvement a = improvement b
      /\ (current_rank a < current_rank b
          \/ (current_rank a = current_rank b
              /\ String.leb (name a) (name b) = true))).

(** The entries one sex contributes, in the order of its names. *)
Definition qualifying (last_year prev_year : Z) (s : string)
    (by_name : Dict.t string (Dict.t Z Z)) : list TrendEntry :=
  omap (fun '(n, year_ranks) =>
          current ← Dict.get last_year year_ranks;
          prev ← Dict.get prev_year year_ranks;
          Some (mkTrend n s current prev (prev - current)))
       (Dict.items by_name).

(** The names and counts recorded for one year and sex. *)
Definition group (years : YearCountTable) (year : Z) (s : string)
  : option (Dict.t string Z) :=
  sex_data ← Dict.get year years; Dict.get s sex_data.

(** No key twice at any level of the table. *)
Definition YearCountTable_wf (years : YearCountTable) : Prop :=
  Dict.wf years
  /\ forall year sex_data, (year, sex_data) ∈ years ->
       Dict.wf sex_data
       /\ forall s names, (s, names) ∈ sex_data -> Dict.wf names.

(** Every sex code of the table is one of the two known ones. *)
Definition two_sexes (years : YearCountTable) : Prop :=
  forall year sex_data s names,
    (year, sex_data) ∈ years -> (s, names) ∈ sex_data -> s = "M" \/ s = "F".

(** One execution of [ranks[sex][name][year] = rank]: the year, the sex
    and the pair [enumerate] yields. *)
Definition assignment : Type := Z * string * (Z * (string * Z)).

Definition assign (ranks : RankTable) (a : assignment) : result RankTable :=
  let '(year, s, e) := a in store_rank year s ranks e.

Definition group_assignments (year : Z) (g : string * Dict.t string Z)
  : list assignment :=
  let '(s, names_counts) := g in
  map (fun e => (year, s, e)) (enumerate 1 (sorted_names names_counts)).

Definition year_assignments (y : Z * Dict.t string (Dict.t string Z))
  : list assignment :=
  let '(year, sex_data) := y in
  flat_map (group_assignments year) (Dict.items sex_data).

(** All assignments of a run of [compute_ranks], in execution order. *)
Definition assignments (years : YearCountTable) : list assignment :=
  flat_map year_assignments (Dict.items years).

(** The rank the last assignment to [ranks[s][n][y]] stores. *)
Fixpoint last_assigned (s n : string) (y : Z) (asg : list assignment)
  : option Z :=
  match asg with
  | [] => None
  | (year, s', (rank, (n', _))) :: asg' =>
      match last_assigned s n y asg' with
      | Some k => Some k
      | None =>
          if decide (s' = s /\ n' = n /\ year = y) then Some rank else None
      end
  end.

(** One record of the dataset as [parse_names] reads it: the year of
    its member, then sex, name and count. *)
Definition record : Type := Z * string * string * Z.

Section records.
Variable int : string -> option Z.

Definition row_record (year : Z) (r : row) : option record :=
  match r with
  | [n; s; count] => c ← int count; Some (year, s, n, c)
  | _ => None
  end.

Fixpoint rows_records (year : Z) (rows : list row) : option (list record) :=
  match rows with
  | [] => Some []
  | r :: rows' =>
      rec ← row_record year r;
      recs ← rows_records year rows';
      Some (rec :: recs)
  end.

(** The records one name of the archive's directory contributes: none
    for a name that is skipped. *)
Definition member_records (zf : archive) (filename : string)
  : option (list record) :=
  if negb (startswith filename "yob") || negb (endswith filename ".txt")
  then Some []
  else
    year ← int (substring 3 4 filename);
    rows ← Dict.get filename (reverse zf);
    rows_records year rows.

Fixpoint members_records (zf : archive) (filenames : list string)
  : option (list record) :=
  match filenames with
  | [] => Some []
  | filename :: filenames' =>
      recs ← member_records zf filename;
      rest ← members_records zf filenames';
      Some (recs ++ rest)
  end.

(** All records of the archive in the order [parse_names] reads them,
    provided each of them is well formed. *)
Definition archive_records (zf : archive) : option (list record) :=
  members_records zf (namelist zf).
End records.

(** The count of the last record for a year, sex and name. *)
Fixpoint last_seen (year : Z) (s n : string) (recs : list record) : option Z :=
  match recs with
  | [] => None
  | (year', s', n', c) :: recs' =>
      match last_seen year s n recs' with
      | Some c' => Some c'
      | None =>
          if decide (year' = year /\ s' = s /\ n' = n) then Some c else None
      end
  end.

Definition store_record (years : YearCountTable) (rec : record)
  : YearCountTable :=
  let '(year, s, n, c) := rec in store_count years year s n c.

(** The built-in [int] restricted to non-empty strings of the digits 0
    to 9, on which it reads a decimal numeral; it serves to run the
    examples. *)
Definition digit_of (c : ascii) : option Z :=
  let d := Z.of_N (N_of_ascii c) - 48 in
  if (0 <=? d) && (d <=? 9) then Some d else None.

Fixpoint digits_value (acc : Z) (s : string) : option Z :=
  match s with
  | EmptyString => Some acc
  | String c s' => d ← digit_of c; digits_value (10 * acc + d) s'
  end.

Definition int_digits (s : string) : option Z :=
  match s with
  | EmptyString => None
  | _ => digits_value 0 s
  end.

(** The table has no year without a sex and no sex without a name. *)
Definition no_empty_group (years : YearCountTable) : Prop :=
  forall year sex_data, (year, sex_data) ∈ years ->
    sex_data <> []
    /\ forall s names, (s, names) ∈ sex_data -> names <> [].

(** The name passes the test of [parse_names] for a data member. *)
Definition is_data_member (filename : string) : bool :=
  startswith filename "yob" && endswith filename ".txt".

(** The entry [a] stands before [b] in the order of line 76: its count
    is larger, or the counts are equal and its name is smaller. *)
Definition outranks (a b : string * Z) : bool :=
  (b.2 <? a.2) || ((a.2 =? b.2) && String.ltb a.1 b.1).

(** ** The data part of [build_site] and of the renderers *)

(** [build_site], from the parsed archive to the trending list: the
    three calls between the download and the writing of the pages. *)
Definition build_site_data (int : string -> option Z) (zf : archive)
  : result (RankTable * list TrendEntry) :=
  years_data ← parse_names int zf;
  ranks ← compute_ranks years_data;
  trending ← calculate_trending ranks 100;
  Ok (ranks, trending).

(** [year_ranks = ranks[sex][name]] in the loop of [build_site] over the
    trending list; [ranks[sex]] is a [defaultdict], which answers a
    missing name with a new empty [dict]. *)
Definition page_year_ranks (ranks : RankTable) (e : TrendEntry)
  : result (Dict.t Z Z) :=
  by_name ← from_option KeyError (Dict.get (sex e) ranks);
  Ok (default Dict.empty (Dict.get (name e) by_name)).

(** [filename = f"{name}-{sex}.html"] *)
Definition page_filename (e : TrendEntry) : string :=
  String.append (name e) (String.append "-" (String.append (sex e) ".html")).

(** A table that lacks the key "F". *)
Definition males_only_ranks : RankTable :=
  [("M", [("Alex", [(2021, 1); (2022, 2)])])].

(** [render_name_page], the part that builds the table rows:
    [years = sorted(year_ranks.keys())] and the rows
    [f"<tr><td>{year}</td><td>{year_ranks[year]}</td></tr>"] joined by
    line feeds. [pretty] prints an integer the way [str] does: decimal
    digits, with a leading minus sign when negative. *)
Definition page_years (year_ranks : Dict.t Z Z) : list Z :=
  sorted id Z.ltb (Dict.keys year_ranks).

Definition page_row (year_ranks : Dict.t Z Z) (year : Z) : result string :=
  rank ← from_option KeyError (Dict.get year year_ranks);
  Ok (String.append "<tr><td>"
        (String.append (pretty year)
           (String.append "</td><td>"
              (String.append (pretty rank) "</td></tr>")))).

Definition page_rows (year_ranks : Dict.t Z Z) : result (list string) :=
  for_each (fun rows year => row ← page_row year_ranks year; Ok (rows ++ [row]))
           [] (page_years year_ranks).

Definition page_rows_html (year_ranks : Dict.t Z Z) : result string :=
  rows ← page_rows year_ranks;
  Ok (String.concat (String "010" EmptyString) rows).

(** ** Tables and archives of the examples *)

Definition scenario_years : YearCountTable :=
  [(2021, [("M", [("Alex", 100); ("Sam", 100)])]);
   (2022, [("M", [("Alex", 50); ("Sam", 200)])])].

Definition scenario_ranks : RankTable :=
  [("M", [("Alex", [(2021, 1); (2022, 2)]); ("Sam", [(2021, 2); (2022, 1)])]);
   ("F", [])].

Definition single_year_ranks : RankTable :=
  [("M", [("Alex", [(2022, 1)]); ("Sam", [(2022, 2)])]); ("F", [])].

Definition both_sexes_ranks : RankTable :=
  [("M", [("Riley", [(2021, 2); (2022, 1)]); ("Noah", [(2021, 1); (2022, 2)])]);
   ("F", [("Riley", [(2021, 2); (2022, 1)]); ("Emma", [(2021, 1); (2022, 2)])])].

Definition repeated_archive : archive :=
  [("yob2022.txt", [["Alex"; "M"; "5"]; ["Sam"; "M"; "9"]; ["Alex"; "M"; "7"]]);
   ("readme.pdf", [["not"; "a"; "record"; "at all"]])].

Definition unknown_sex_archive : archive :=
  [("yob2022.txt", [["Alex"; "X"; "3"]])].

Definition unknown_sex_years : YearCountTable :=
  [(2022, [("X", [("Alex", 3)])])].

(** An archive with a member that is no data file and a data member
    without rows. *)
Definition mixed_archive : archive :=
  [("yob2021.txt", []);
   ("NationalReadMe.pdf", [["National"; "data"]]);
   ("yob2022.txt", [["Alex"; "M"; "5"]; ["Emma"; "F"; "8"]])].

Definition malformed_archive : archive :=
  [("yob2022.txt", [["Alex"; "M"; "5"]; ["Emma"; "F"]])].

(** The scenario's year 2021 with its rows in the other order, beside a
    year of its own. *)
Definition reordered_years : YearCountTable :=
  [(1999, [("F", [("Emma", 4)])]);
   (2021, [("M", [("Sam", 100); ("Alex", 100)])])].

(** The scenario's ranks with the names in the other order. *)
Definition scenario_ranks_reordered : RankTable :=
  [("M", [("Sam", [(2021, 2); (2022, 1)]); ("Alex", [(2021, 1); (2022, 2)])]);
   ("F", [])].

(** ** Facts about dictionaries *)

Section dict_facts.
Context {K V : Type} `{EqDecision K}.
Implicit Types (d : Dict.t K V) (k : K) (v : V).

Lemma dict_get_set_eq k v d : Dict.get k (Dict.set k v d) = Some v.
  Proof.
    induction d as [|[k' v'] d IH]; simpl.
    - by rewrite decide_True.
    - destruct (decide (k = k')) as [->|Hne]; simpl.
      + by rewrite decide_True.
      + by rewrite decide_False.
  Qed.

Lemma dict_get_set_ne k k' v d : k <> k' -> Dict.get k' (Dict.set k v d) = Dict.get k' d.
  Proof.
    intros Hne. induction d as [|[k0 v0] d IH]; simpl.
    - rewrite decide_False; [done | congruence].
    - destruct (decide (k = k0)) as [->|Hne0]; simpl.
      + rewrite !decide_False; [done | congruence | congruence].
      + destruct (decide (k' = k0)); [done | apply IH].
  Qed.

Lemma dict_get_set k k' v d :
    Dict.get k' (Dict.set k v d) = if decide (k = k') then Some v else Dict.get k' d.
  Proof.
    destruct (decide (k = k')) as [->|Hne];
      [apply dict_get_set_eq | by apply dict_get_set_ne].
  Qed.

Lemma dict_get_Some_elem k v d : Dict.get k d = Some v -> (k, v) ∈ d.
  Proof.
    induction d as [|[k' v'] d IH]; simpl; [done|].
    destruct (decide (k = k')) as [->|Hne].
    - intros [= ->]. apply list_elem_of_here.
    - intros H. apply list_elem_of_further. by apply IH.
  Qed.

Lemma dict_get_None_keys k d : Dict.get k d = None <-> k ∉ Dict.keys d.
  Proof.
    induction d as [|[k' v'] d IH]; simpl.
    - split; [intros _; apply not_elem_of_nil | done].
    - rewrite not_elem_of_cons. destruct (decide (k = k')) as [->|Hne].
      + split; [done | intros [? _]; done].
      + rewrite IH. tauto.
  Qed.

Lemma dict_elem_get k v d : Dict.wf d -> (k, v) ∈ d -> Dict.get k d = Some v.
  Proof.
    unfold Dict.wf. induction d as [|[k' v'] d IH]; simpl.
    - intros _ H. by apply not_elem_of_nil in H.
    - rewrite NoDup_cons. intros [Hk Hd] Hin.
      apply elem_of_cons in Hin as [[= -> ->]|Hin].
      + by rewrite decide_True.
      + destruct (decide (k = k')) as [->|Hne]; [|by apply IH].
        exfalso. apply Hk. apply list_elem_of_fmap. by exists (k', v).
  Qed.

Lemma dict_keys_set k v d :
    Dict.keys (Dict.set k v d) = if Dict.mem k d then Dict.keys d else Dict.keys d ++ [k].
  Proof.
    unfold Dict.mem. induction d as [|[k' v'] d IH]; simpl; [done|].
    destruct (decide (k = k')) as [->|Hne]; simpl; [done|].
    rewrite IH. by destruct (Dict.get k d).
  Qed.

Lemma dict_wf_set k v d : Dict.wf d -> Dict.wf (Dict.set k v d).
  Proof.
    unfold Dict.wf. rewrite dict_keys_set. unfold Dict.mem.
    destruct (Dict.get k d) eqn:Hg; [done|].
    intros Hnd. apply NoDup_app. split_and!; [done| |apply NoDup_singleton].
    intros x Hx Hx'. apply list_elem_of_singleton in Hx' as ->.
    by apply dict_get_None_keys in Hg.
  Qed.

Lemma dict_wf_empty : Dict.wf (Dict.empty : Dict.t K V).
  Proof. apply NoDup_nil_2. Qed.
End dict_facts.

(** ** Facts about the orders *)

Lemma ascii_compare_refl (c : ascii) : Ascii.compare c c = Eq.
Proof. unfold Ascii.compare. apply N.compare_refl. Qed.

Lemma ascii_compare_lt_trans (a b c : ascii) :
  Ascii.compare a b = Lt -> Ascii.compare b c = Lt -> Ascii.compare a c = Lt.
Proof. unfold Ascii.compare. rewrite !N.compare_lt_iff. lia. Qed.

Lemma string_compare_refl (s : string) : String.compare s s = Eq.
Proof. induction s as [|c s IH]; simpl; [done|]. by rewrite ascii_compare_refl. Qed.

Lemma string_compare_lt_trans (s1 s2 s3 : string) :
  String.compare s1 s2 = Lt -> String.compare s2 s3 = Lt ->
  String.compare s1 s3 = Lt.
Proof.
  revert s2 s3. induction s1 as [|a s1 IH]; intros [|b s2] [|c s3]; simpl; try done.
  destruct (Ascii.compare a b) eqn:Hab; try done;
    destruct (Ascii.compare b c) eqn:Hbc; try done; intros H12 H23.
  - apply Ascii.compare_eq_iff in Hab as ->. rewrite Hbc. by eapply IH.
  - apply Ascii.compare_eq_iff in Hab as ->. by rewrite Hbc.
  - apply Ascii.compare_eq_iff in Hbc as ->. by rewrite Hab.
  - by rewrite (ascii_compare_lt_trans _ _ _ Hab Hbc).
Qed.

#[global] Instance str_ltb_order : StrictTotalOrder str_ltb.
Proof.
  unfold str_ltb, String.ltb. split.
  - intros a. by rewrite string_compare_refl.
  - intros a b c.
    destruct (String.compare a b) eqn:Hab; try done.
    destruct (String.compare b c) eqn:Hbc; try done.
    by rewrite (string_compare_lt_trans _ _ _ Hab Hbc).
  - intros a b. rewrite (String.compare_antisym b a).
    destruct (String.compare a b) eqn:Hab; try done.
    intros _ _. by apply String.compare_eq_iff.
Qed.

#[global] Instance Z_ltb_order : StrictTotalOrder Z.ltb.
Proof.
  split.
  - intros a. apply Z.ltb_irrefl.
  - intros a b c. rewrite !Z.ltb_lt. lia.
  - intros a b. rewrite !Z.ltb_ge. lia.
Qed.

#[global] Instance lex_ltb_order {K1 K2 : Type} `{EqDecision K1}
    (lt1 : K1 -> K1 -> bool) (lt2 : K2 -> K2 -> bool)
    `{!StrictTotalOrder lt1, !StrictTotalOrder lt2} :
  StrictTotalOrder (lex_ltb lt1 lt2).
Proof.
  unfold lex_ltb. split.
  - intros [a1 a2]; simpl. rewrite !ltb_irrefl. by rewrite andb_false_r.
  - intros [a1 a2] [b1 b2] [c1 c2]; simpl.
    rewrite !orb_true_iff, !andb_true_iff, !bool_decide_eq_true.
    intros [H1|[-> H1]] [H2|[-> H2]]; eauto using ltb_trans.
  - intros [a1 a2] [b1 b2]; simpl.
    rewrite !orb_false_iff, !andb_false_iff, !bool_decide_eq_false.
    intros [H1 H1'] [H2 H2'].
    assert (a1 = b1) as -> by by apply (ltb_connex (ltb:=lt1)).
    f_equal. apply (ltb_connex (ltb:=lt2)); tauto.
Qed.

Lemma key2_ltb_lex a b : key2_ltb a b = lex_ltb Z.ltb str_ltb a b.
Proof.
  unfold key2_ltb, lex_ltb. do 2 f_equal.
  destruct (Z.eqb_spec a.1 b.1); [by rewrite bool_decide_eq_true_2|
                                   by rewrite bool_decide_eq_false_2].
Qed.

Lemma key3_ltb_lex a b :
  key3_ltb a b = lex_ltb (lex_ltb Z.ltb Z.ltb) str_ltb a b.
Proof.
  destruct a as [[a1 a2] a3], b as [[b1 b2] b3].
  unfold key3_ltb, lex_ltb; simpl.
  destruct (Z.ltb_spec a1 b1), (Z.eqb_spec a1 b1), (Z.ltb_spec a2 b2),
    (Z.eqb_spec a2 b2); simpl; try lia;
    repeat (first [rewrite bool_decide_eq_true_2 by congruence
                  |rewrite bool_decide_eq_false_2 by congruence]); simpl;
    try done; subst; try lia.
Qed.

Lemma StrictTotalOrder_ext {Key : Type} (lt1 lt2 : Key -> Key -> bool) :
  (forall a b, lt1 a b = lt2 a b) -> StrictTotalOrder lt2 -> StrictTotalOrder lt1.
Proof.
  intros Hext [H1 H2 H3]. split; intros *; rewrite ?Hext; eauto.
Qed.

#[global] Instance key2_ltb_order : StrictTotalOrder key2_ltb.
Proof. apply (StrictTotalOrder_ext _ _ key2_ltb_lex), _. Qed.

#[global] Instance key3_ltb_order : StrictTotalOrder key3_ltb.
Proof. apply (StrictTotalOrder_ext _ _ key3_ltb_lex), _. Qed.

(** ** Facts about sorting *)

Section sorted_facts.
Context {A Key : Type} `{EqDecision Key}.
Context (key : A -> Key) (ltb : Key -> Key -> bool).
Abbreviation insert_by := (insert_by key ltb).
Abbreviation sorted := (sorted key ltb).
Abbreviation key_le := (key_le key ltb).
Abbreviation has_key := (has_key key).

Lemma insert_by_Permutation x l : insert_by x l ≡ₚ x :: l.
  Proof.
    induction l as [|y l IH]; simpl; [done|].
    destruct (ltb (key y) (key x)); [|done].
    rewrite IH. apply Permutation_swap.
  Qed.

Lemma sorted_Permutation l : sorted l ≡ₚ l.
  Proof.
    induction l as [|x l IH]; simpl; [done|].
    by rewrite insert_by_Permutation, IH.
  Qed.

Lemma sorted_length l : length (sorted l) = length l.
  Proof. apply Permutation_length, sorted_Permutation. Qed.

Lemma elem_of_sorted x l : x ∈ sorted l <-> x ∈ l.
  Proof. by rewrite sorted_Permutation. Qed.

Context `{!StrictTotalOrder ltb}.

Lemma key_le_refl x : key_le x x.
  Proof. apply ltb_irrefl. Qed.

Lemma key_le_trans x y z : key_le x y -> key_le y z -> key_le x z.
  Proof.
    unfold key_le. intros Hxy Hyz.
    destruct (ltb (key z) (key x)) eqn:Hzx; [|done].
    destruct (ltb (key x) (key y)) eqn:Hlt.
    - by rewrite (ltb_trans _ _ _ Hzx Hlt) in Hyz.
    - rewrite (ltb_connex _ _ Hlt Hxy) in Hzx. congruence.
  Qed.

Lemma key_le_total x y : key_le x y \/ key_le y x.
  Proof.
    unfold key_le. destruct (ltb (key y) (key x)) eqn:Hyx; [|by left].
    right. destruct (ltb (key x) (key y)) eqn:Hxy; [|done].
    by rewrite <- (ltb_irrefl (key x)), (ltb_trans _ _ _ Hxy Hyx).
  Qed.

Lemma key_le_antisym x y : key_le x y -> key_le y x -> key x = key y.
  Proof. unfold key_le. intros. by apply (ltb_connex (ltb:=ltb)). Qed.

Lemma insert_by_StronglySorted x l :
    StronglySorted key_le l -> StronglySorted key_le (insert_by x l).
  Proof.
    induction 1 as [|y l Hl IH Hy]; simpl.
    - repeat constructor.
    - destruct (ltb (key y) (key x)) eqn:Hyx.
      + constructor; [done|].
        rewrite Forall_forall in Hy |- *. intros z Hz.
        rewrite insert_by_Permutation in Hz.
        apply elem_of_cons in Hz as [->|Hz]; [|by apply Hy].
        destruct (key_le_total y x) as [?|Hc]; [done|].
        unfold key_le in Hc. congruence.
      + constructor; [by constructor|]. constructor; [done|].
        eapply Forall_impl; [exact Hy|].
        intros z Hz. by eapply key_le_trans.
  Qed.

Lemma sorted_StronglySorted l : StronglySorted key_le (sorted l).
  Proof.
    induction l as [|x l IH]; simpl; [constructor|].
    by apply insert_by_StronglySorted.
  Qed.

  (** Stability: the elements of any one key keep their input order. *)
Lemma insert_by_filter k x l :
    filter (has_key k) (insert_by x l) = filter (has_key k) (x :: l).
  Proof.
    induction l as [|y l IH]; simpl; [done|].
    destruct (ltb (key y) (key x)) eqn:Hyx; [|done].
    destruct (decide (has_key k y)) as [Hy|Hy],
      (decide (has_key k x)) as [Hx|Hx];
      repeat first [rewrite filter_cons_True in IH by done
                   |rewrite filter_cons_False in IH by done];
      repeat first [rewrite filter_cons_True by done
                   |rewrite filter_cons_False by done];
      rewrite ?IH; try done.
    unfold has_key in Hx, Hy. rewrite Hx, Hy in Hyx.
    by rewrite ltb_irrefl in Hyx.
  Qed.

Lemma sorted_stable k l :
    filter (has_key k) (sorted l) = filter (has_key k) l.
  Proof.
    induction l as [|x l IH]; simpl; [done|].
    by rewrite insert_by_filter, !filter_cons, IH.
  Qed.

Lemma StronglySorted_lookup_le (l : list A) i j x y :
    StronglySorted key_le l -> l !! i = Some x -> l !! j = Some y ->
    (i <= j)%nat -> key_le x y.
  Proof.
    intros Hl. revert i j. induction Hl as [|z l Hl IH Hz]; intros i j; [done|].
    destruct i as [|i], j as [|j]; simpl; try lia.
    - intros [= ->] [= ->] _. apply key_le_refl.
    - intros [= ->] Hj _. rewrite Forall_forall in Hz.
      apply Hz. by eapply list_elem_of_lookup_2.
    - intros Hi Hj Hij. apply (IH i j); [done|done|lia].
  Qed.

  (** A list that is sorted and keeps, for every key, the input order of
      the elements with that key is the list [sorted] computes. *)
Lemma stable_sort_unique (l1 l2 : list A) :
    StronglySorted key_le l1 -> StronglySorted key_le l2 ->
    (forall k, filter (has_key k) l1 = filter (has_key k) l2) ->
    l1 = l2.
  Proof.
    intros H1. revert l2. induction H1 as [|x l1 H1 IH Hx]; intros l2 H2 Hf.
    - destruct l2 as [|y l2]; [done|].
      specialize (Hf (key y)). rewrite filter_cons_True in Hf by done.
      by rewrite filter_nil in Hf.
    - destruct H2 as [|y l2 H2 Hy].
      { specialize (Hf (key x)). rewrite filter_cons_True in Hf by done.
        by rewrite filter_nil in Hf. }
      assert (x ∈ y :: l2) as Hxin.
      { pose proof (Hf (key x)) as Hk. rewrite filter_cons_True in Hk by done.
        assert (x ∈ filter (has_key (key x)) (y :: l2)) as Hin
          by (rewrite <- Hk; apply list_elem_of_here).
        by apply list_elem_of_filter in Hin as [_ ?]. }
      assert (y ∈ x :: l1) as Hyin.
      { pose proof (Hf (key y)) as Hk.
        rewrite (filter_cons_True _ y) in Hk by done.
        assert (y ∈ filter (has_key (key y)) (x :: l1)) as Hin
          by (rewrite Hk; apply list_elem_of_here).
        by apply list_elem_of_filter in Hin as [_ ?]. }
      assert (key x = key y) as Hxy.
      { apply key_le_antisym.
        - apply elem_of_cons in Hyin as [->|Hyin]; [apply key_le_refl|].
          rewrite Forall_forall in Hx. by apply Hx.
        - apply elem_of_cons in Hxin as [->|Hxin]; [apply key_le_refl|].
          rewrite Forall_forall in Hy. by apply Hy. }
      assert (x = y) as ->.
      { specialize (Hf (key x)).
        rewrite !filter_cons_True in Hf by (unfold has_key; congruence).
        congruence. }
      f_equal. apply IH; [done|]. intros k. specialize (Hf k).
      rewrite !filter_cons in Hf. destruct (decide (has_key k y)); congruence.
  Qed.
End sorted_facts.

(** ** The scenario of the specification, run on the embedding *)

Example compute_ranks_scenario : compute_ranks scenario_years = Ok scenario_ranks.
Proof. vm_compute. reflexivity. Qed.

Example calculate_trending_scenario :
  calculate_trending scenario_ranks 10
  = Ok [mkTrend "Sam" "M" 1 2 1; mkTrend "Alex" "M" 2 1 (-1)].
Proof. vm_compute. reflexivity. Qed.

(** ** Facts about [calculate_trending] *)

Lemma for_each_app {A S : Type} (body : S -> A -> result S) s l1 l2 :
  for_each body s (l1 ++ l2) = (s' ← for_each body s l1; for_each body s' l2).
Proof.
  revert s. induction l1 as [|a l1 IH]; intros s; simpl; [done|].
  destruct (body s a) as [s'|e]; simpl; [apply IH | done].
Qed.

Lemma elem_of_years_of_names (acc : gset Z) (by_name : Dict.t string (Dict.t Z Z)) y :
  y ∈ foldl (fun acc '(_, year_ranks) =>
               acc ∪ list_to_set (Dict.keys (V:=Z) year_ranks))
            acc (Dict.items by_name)
  <-> y ∈ acc \/ exists n year_ranks,
        (n, year_ranks) ∈ by_name /\ y ∈ Dict.keys year_ranks.
Proof.
  unfold Dict.items. revert acc.
  induction by_name as [|[n yr] by_name IH]; intros acc; simpl.
  - split; [by left|]. intros [?|(? & ? & H & _)]; [done|].
    by apply not_elem_of_nil in H.
  - rewrite IH, elem_of_union, elem_of_list_to_set. split.
    + intros [[?|?]|(n' & yr' & Hin & Hy)]; [by left| |].
      * right. exists n, yr. split; [apply list_elem_of_here | done].
      * right. exists n', yr'. split; [by apply list_elem_of_further | done].
    + intros [?|(n' & yr' & Hin & Hy)]; [by left; left|].
      apply elem_of_cons in Hin as [[= -> ->]|Hin]; [by left; right|].
      right. by exists n', yr'.
Qed.

Lemma elem_of_all_years ranks y : y ∈ all_years ranks <-> year_occurs ranks y.
Proof.
  unfold all_years, year_occurs, Dict.items.
  assert (forall acc : gset Z,
    y ∈ foldl (fun acc '(_, by_name) =>
                 foldl (fun acc '(_, year_ranks) =>
                          acc ∪ list_to_set (Dict.keys (V:=Z) year_ranks))
                       acc by_name) acc ranks
    <-> y ∈ acc \/ exists s by_name n year_ranks,
          (s, by_name) ∈ ranks /\ (n, year_ranks) ∈ by_name
          /\ y ∈ Dict.keys year_ranks) as Hgen.
  { induction ranks as [|[s bn] ranks IH]; intros acc; simpl.
    - split; [by left|]. intros [?|(? & ? & ? & ? & H & _)]; [done|].
      by apply not_elem_of_nil in H.
    - rewrite IH. pose proof (elem_of_years_of_names acc bn y) as Hn.
      unfold Dict.items in Hn. rewrite Hn. split.
      + intros [[?|(n & yr & ? & ?)]|(s' & bn' & n & yr & Hin & ? & ?)].
        * by left.
        * right. exists s, bn, n, yr. split; [apply list_elem_of_here | done].
        * right. exists s', bn', n, yr.
          split; [by apply list_elem_of_further | done].
      + intros [?|(s' & bn' & n & yr & Hin & ? & ?)]; [by left; left|].
        apply elem_of_cons in Hin as [[= -> ->]|Hin].
        * left; right. by exists n, yr.
        * right. by exists s', bn', n, yr. }
  rewrite Hgen. split; [|by right]. intros [H|H]; [|done].
  by apply not_elem_of_empty in H.
Qed.

Lemma foldl_max_spec (l : list Z) (y : Z) :
  let m := foldl Z.max y l in
  (m = y \/ m ∈ l) /\ y <= m /\ forall z, z ∈ l -> z <= m.
Proof.
  revert y. induction l as [|x l IH]; intros y; simpl.
  - split_and!; [by left | lia |]. intros z Hz. by apply not_elem_of_nil in Hz.
  - destruct (IH (Z.max y x)) as (Hm & Hle & Hall). split_and!.
    + destruct Hm as [Hm|Hm]; [|right; by apply list_elem_of_further].
      rewrite Hm. destruct (Z.max_spec y x) as [[_ ->]|[_ ->]];
        [right; apply list_elem_of_here | by left].
    + lia.
    + intros z Hz. apply elem_of_cons in Hz as [->|Hz]; [lia | by apply Hall].
Qed.

Lemma py_max_spec (l : list Z) :
  l <> [] -> exists m, py_max l = Ok m /\ m ∈ l /\ forall z, z ∈ l -> z <= m.
Proof.
  destruct l as [|y l]; [done|]. intros _. simpl.
  destruct (foldl_max_spec l y) as (Hm & Hle & Hall).
  eexists. split_and!; [done| |].
  - destruct Hm as [->|Hm]; [apply list_elem_of_here | by apply list_elem_of_further].
  - intros z Hz. apply elem_of_cons in Hz as [->|Hz]; [done | by apply Hall].
Qed.

Lemma is_last_year_unique ranks y1 y2 :
  is_last_year ranks y1 -> is_last_year ranks y2 -> y1 = y2.
Proof. intros [H1 H1'] [H2 H2']. apply H1' in H2. apply H2' in H1. lia. Qed.

Lemma is_prev_year_unique ranks last y1 y2 :
  is_prev_year ranks last y1 -> is_prev_year ranks last y2 -> y1 = y2.
Proof.
  intros (H1 & Hlt1 & H1') (H2 & Hlt2 & H2').
  apply H1' in H2; [|done]. apply H2' in H1; [|done]. lia.
Qed.

(** With two distinct years in the table the comparison years exist and
    are the ones [calculate_trending] computes. *)
Lemma comparison_years ranks :
  (exists y1 y2, year_occurs ranks y1 /\ year_occurs ranks y2 /\ y1 <> y2) ->
  exists last_year prev_year,
    is_last_year ranks last_year /\ is_prev_year ranks last_year prev_year
    /\ bool_decide (size (all_years ranks) < 2)%nat = false
    /\ py_max (elements (all_years ranks)) = Ok last_year
    /\ py_max (filter (fun y => y < last_year) (elements (all_years ranks)))
       = Ok prev_year.
Proof.
  intros (y1 & y2 & Hy1 & Hy2 & Hne).
  apply elem_of_all_years in Hy1, Hy2.
  destruct (py_max_spec (elements (all_years ranks))) as (last & Hmax & Hin & Hle).
  { intros Hnil. apply elem_of_elements in Hy1. rewrite Hnil in Hy1.
    by apply not_elem_of_nil in Hy1. }
  assert (exists y, y ∈ all_years ranks /\ y < last) as (y & Hy & Hylt).
  { apply elem_of_elements in Hy1 as Hy1', Hy2 as Hy2'.
    apply Hle in Hy1', Hy2'.
    destruct (decide (y1 = last)) as [->|?]; [exists y2 | exists y1];
      (split; [done | lia]). }
  destruct (py_max_spec (filter (fun y => y < last) (elements (all_years ranks))))
    as (prev & Hmax' & Hin' & Hle').
  { intros Hnil.
    assert (y ∈ filter (fun y => y < last) (elements (all_years ranks))) as Hf
      by (apply list_elem_of_filter; split; [done | by apply elem_of_elements]).
    rewrite Hnil in Hf. by apply not_elem_of_nil in Hf. }
  apply list_elem_of_filter in Hin' as [Hplt Hpin].
  exists last, prev. split_and!; try done.
  - split; [by apply elem_of_all_years, elem_of_elements|].
    intros z Hz. by apply Hle, elem_of_elements, elem_of_all_years.
  - split_and!; [by apply elem_of_all_years, elem_of_elements | done |].
    intros z Hz Hzlt. apply Hle', list_elem_of_filter.
    split; [done | by apply elem_of_elements, elem_of_all_years].
  - apply bool_decide_eq_false. intros Hsz.
    assert (size (all_years ranks) <> 0%nat) as Hnz.
    { intros H0. apply size_empty_inv in H0. set_solver. }
    assert (size (all_years ranks) = 1%nat) as H1 by lia.
    apply size_1_elem_of in H1 as [z Hz].
    rewrite Hz in Hy1, Hy2. apply elem_of_singleton in Hy1, Hy2. congruence.
Qed.

Lemma foldl_add_candidate last_year prev_year s acc by_name :
  foldl (add_candidate last_year prev_year s) acc (Dict.items by_name)
  = acc ++ qualifying last_year prev_year s by_name.
Proof.
  unfold qualifying, Dict.items. revert acc.
  induction by_name as [|[n yr] by_name IH]; intros acc; simpl.
  - by rewrite app_nil_r.
  - rewrite IH. destruct (Dict.get last_year yr) as [c|]; simpl; [|done].
    destruct (Dict.get prev_year yr) as [p|]; simpl; [|done].
    by rewrite <- app_assoc.
Qed.

Lemma trending_candidates_Ok ranks last_year prev_year cands :
  trending_candidates ranks last_year prev_year = Ok cands <->
  exists males females,
    Dict.get "M" ranks = Some males /\ Dict.get "F" ranks = Some females
    /\ cands = qualifying last_year prev_year "M" males
               ++ qualifying last_year prev_year "F" females.
Proof.
  unfold trending_candidates, add_sex; simpl.
  destruct (Dict.get "M" ranks) as [males|]; simpl.
  - destruct (Dict.get "F" ranks) as [females|]; simpl.
    + rewrite !foldl_add_candidate; simpl. split.
      * intros [= <-]. by exists males, females.
      * intros (? & ? & [= <-] & [= <-] & ->). done.
    + split; [done | by intros (? & ? & _ & ? & _)].
  - split; [done | by intros (? & ? & ? & _)].
Qed.

Lemma elem_of_qualifying last_year prev_year s by_name e :
  e ∈ qualifying last_year prev_year s by_name <->
  sex e = s
  /\ exists year_ranks,
       (name e, year_ranks) ∈ by_name
       /\ Dict.get last_year year_ranks = Some (current_rank e)
       /\ Dict.get prev_year year_ranks = Some (prev_rank e)
       /\ improvement e = prev_rank e - current_rank e.
Proof.
  unfold qualifying, Dict.items. rewrite list_elem_of_omap. split.
  - intros ([n yr] & Hin & Hq).
    destruct (Dict.get last_year yr) as [c|] eqn:Hc; simpl in Hq; [|done].
    destruct (Dict.get prev_year yr) as [p|] eqn:Hp; simpl in Hq; [|done].
    injection Hq as <-; simpl. split; [done|]. by exists yr.
  - intros (<- & yr & Hin & Hc & Hp & Hi). exists (name e, yr).
    split; [done|]. rewrite Hc, Hp; simpl. destruct e; simpl in *. by subst.
Qed.

Lemma Forall_sex_qualifying last_year prev_year s by_name :
  Forall (fun e => sex e = s) (qualifying last_year prev_year s by_name).
Proof.
  apply Forall_forall. intros e He. by apply elem_of_qualifying in He as [? _].
Qed.

Lemma string_leb_ltb (a b : string) :
  String.leb a b = true <-> str_ltb b a = false.
Proof.
  unfold String.leb, str_ltb, String.ltb. rewrite (String.compare_antisym a b).
  by destruct (String.compare b a).
Qed.

Lemma key_le_trend_before a b :
  key_le trend_key key3_ltb a b <-> trend_before a b.
Proof.
  unfold key_le, trend_before, key3_ltb, trend_key; simpl.
  rewrite string_leb_ltb.
  destruct (Z.ltb_spec (- improvement b) (- improvement a)),
    (Z.eqb_spec (- improvement b) (- improvement a)),
    (Z.ltb_spec (current_rank b) (current_rank a)),
    (Z.eqb_spec (current_rank b) (current_rank a)); simpl;
    split; intros Hk; try done; try lia;
    try (destruct Hk as [?|[? [?|[? ?]]]]; first [done | lia]).
  all: try (right; split; [lia|]; first [left; lia | right; split; [lia | done]]).
  all: try (left; lia).
Qed.

Lemma slice_to_take {A : Type} (n : Z) (l : list A) :
  exists m, slice_to n l = take m l.
Proof. unfold slice_to. destruct (0 <=? n); eauto. Qed.

Lemma slice_to_nonneg {A : Type} (n : Z) (l : list A) :
  0 <= n -> slice_to n l = take (Z.to_nat n) l.
Proof. unfold slice_to. intros H. by destruct (Z.leb_spec 0 n); [|lia]. Qed.

(** What [calculate_trending] returns once two distinct years exist. *)
Lemma calculate_trending_two_years ranks top_n last_year prev_year :
  is_last_year ranks last_year -> is_prev_year ranks last_year prev_year ->
  calculate_trending ranks top_n
  = (trending_list ← trending_candidates ranks last_year prev_year;
     Ok (slice_to top_n (sorted trend_key key3_ltb trending_list))).
Proof.
  intros Hlast Hprev.
  destruct (comparison_years ranks) as (l & p & Hl & Hp & Hsz & Hmax & Hmax').
  { exists last_year, prev_year. destruct Hlast as [? _], Hprev as (? & ? & _).
    split_and!; [done | done | lia]. }
  pose proof (is_last_year_unique _ _ _ Hlast Hl) as <-.
  pose proof (is_prev_year_unique _ _ _ _ Hprev Hp) as <-.
  unfold calculate_trending. rewrite Hsz, Hmax; simpl. by rewrite Hmax'.
Qed.

Lemma two_sizes_two_years ranks :
  bool_decide (size (all_years ranks) < 2)%nat = false ->
  exists y1 y2, year_occurs ranks y1 /\ year_occurs ranks y2 /\ y1 <> y2.
Proof.
  intros Hsz. apply bool_decide_eq_false in Hsz.
  destruct (size_pos_elem_of (all_years ranks)) as [y1 Hy1]; [lia|].
  destruct (size_pos_elem_of (all_years ranks ∖ {[y1]})) as [y2 Hy2].
  { rewrite size_difference by set_solver. rewrite size_singleton. lia. }
  apply elem_of_difference in Hy2 as [Hy2 Hne].
  exists y1, y2. rewrite <- !elem_of_all_years. split_and!; [done | done |].
  intros ->. apply Hne. by apply elem_of_singleton.
Qed.

(** Among the entries with one key, those of sex "M" come first when
    they do so in the input. *)
Lemma male_before_female (P : TrendEntry -> Prop) `{!forall e, Decision (P e)}
    (l males females : list TrendEntry) (i j : nat) (e1 e2 : TrendEntry) :
  filter P l = males ++ females ->
  Forall (fun e => sex e = "M") males -> Forall (fun e => sex e = "F") females ->
  l !! i = Some e1 -> l !! j = Some e2 -> P e1 -> P e2 ->
  sex e1 = "M" -> sex e2 = "F" -> (i < j)%nat.
Proof.
  intros Hf Hm Hw. revert males Hm Hf i j.
  induction l as [|x l IH]; intros males Hm Hf i j Hi Hj P1 P2 S1 S2; [done|].
  destruct (decide (P x)) as [Px|Px].
  - rewrite filter_cons_True in Hf by done. destruct males as [|a males].
    + simpl in Hf. assert (e1 ∈ filter P (x :: l)) as Hin.
      { apply list_elem_of_filter. split; [done|]. by eapply list_elem_of_lookup_2. }
      rewrite filter_cons_True, Hf in Hin by done.
      rewrite Forall_forall in Hw. apply Hw in Hin. congruence.
    + simpl in Hf. injection Hf as -> Hf. apply Forall_cons in Hm as [Sa Hm].
      destruct j as [|j]; [simpl in Hj; congruence|].
      destruct i as [|i]; [lia|]. simpl in Hi, Hj.
      enough (i < j)%nat by lia. by eapply IH.
  - rewrite filter_cons_False in Hf by done.
    destruct i as [|i]; [simpl in Hi; congruence|].
    destruct j as [|j]; [simpl in Hj; congruence|]. simpl in Hi, Hj.
    enough (i < j)%nat by lia. by eapply IH.
Qed.

Lemma StronglySorted_weaken {A : Type} (R1 R2 : A -> A -> Prop) (l : list A) :
  (forall a b, R1 a b -> R2 a b) -> StronglySorted R1 l -> StronglySorted R2 l.
Proof.
  intros HR. induction 1 as [|a l Hl IH Ha]; constructor; [done|].
  eapply Forall_impl; [exact Ha | apply HR].
Qed.

(** ** Properties of the trend selection *)

Lemma scenario_ranks_wf : RankTable_wf scenario_ranks.
Proof.
  split.
  - intros s. unfold scenario_ranks; simpl.
    repeat case_decide; subst; split; intros Hs; eauto;
      solve [by destruct Hs as [? [=]] | by destruct Hs].
  - intros s by_name. unfold scenario_ranks; simpl.
    repeat case_decide; intros [= <-];
      apply (bool_decide_unpack _); by vm_compute.
Qed.

Lemma scenario_years_occur :
  exists y1 y2, year_occurs scenario_ranks y1 /\ year_occurs scenario_ranks y2
                /\ y1 <> y2.
Proof.
  exists 2021, 2022. split_and!; [| |done].
  - exists "M", [("Alex", [(2021, 1); (2022, 2)]); ("Sam", [(2021, 2); (2022, 1)])],
      "Alex", [(2021, 1); (2022, 2)].
    split_and!; [apply list_elem_of_here | apply list_elem_of_here |].
    apply list_elem_of_here.
  - exists "M", [("Alex", [(2021, 1); (2022, 2)]); ("Sam", [(2021, 2); (2022, 1)])],
      "Alex", [(2021, 1); (2022, 2)].
    split_and!; [apply list_elem_of_here | apply list_elem_of_here |].
    apply list_elem_of_further, list_elem_of_here.
Qed.

(** C5. A table whose years, taken over both sexes and all names, number
    fewer than two makes [calculate_trending] return the empty list, for
    every requested count, and no exception is raised. *)
Theorem calculate_trending_insufficient_history ranks top_n :
  (forall y1 y2, year_occurs ranks y1 -> year_occurs ranks y2 -> y1 = y2) ->
  calculate_trending ranks top_n = Ok [].
Proof.
  intros Hone. unfold calculate_trending.
  destruct (bool_decide (size (all_years ranks) < 2)%nat) eqn:Hsz; [done|].
  apply two_sizes_two_years in Hsz as (y1 & y2 & H1 & H2 & Hne).
  destruct Hne. by apply Hone.
Qed.

Lemma calculate_trending_insufficient_history_witness :
  calculate_trending single_year_ranks 5 = Ok [].
Proof.
  apply calculate_trending_insufficient_history.
  assert (forall y, year_occurs single_year_ranks y -> y = 2022) as Hy.
  { intros y Hy. apply elem_of_all_years in Hy.
    replace (all_years single_year_ranks) with ({[2022]} : gset Z) in Hy
      by (apply (bool_decide_unpack _); by vm_compute).
    by apply elem_of_singleton in Hy. }
  intros y1 y2 H1 H2. apply Hy in H1, H2. congruence.
Defined.

(** C1. With at least two distinct years in the table, the list
    [calculate_trending] returns is the first [top_n] entries of the
    candidate list sorted by improvement descending, then current rank
    ascending, then name ascending. *)
Theorem calculate_trending_sorted_prefix ranks top_n :
  RankTable_wf ranks ->
  (exists y1 y2, year_occurs ranks y1 /\ year_occurs ranks y2 /\ y1 <> y2) ->
  0 <= top_n ->
  exists last_year prev_year candidates ordered,
    is_last_year ranks last_year
    /\ is_prev_year ranks last_year prev_year
    /\ trending_candidates ranks last_year prev_year = Ok candidates
    /\ ordered ≡ₚ candidates
    /\ StronglySorted trend_before ordered
    /\ calculate_trending ranks top_n = Ok (take (Z.to_nat top_n) ordered).
Proof.
  intros [Hkeys _] Hyears Hn.
  destruct (comparison_years ranks Hyears) as (last & prev & Hl & Hp & _).
  destruct (proj2 (Hkeys "M")) as [males Hm]; [by left|].
  destruct (proj2 (Hkeys "F")) as [females Hf]; [by right|].
  set (cands := qualifying last prev "M" males ++ qualifying last prev "F" females).
  assert (trending_candidates ranks last prev = Ok cands) as Hc
    by (apply trending_candidates_Ok; by exists males, females).
  exists last, prev, cands, (sorted trend_key key3_ltb cands).
  split_and!; try done.
  - apply sorted_Permutation.
  - eapply StronglySorted_weaken;
      [|apply (sorted_StronglySorted trend_key key3_ltb)].
    intros a b. apply key_le_trend_before.
  - rewrite (calculate_trending_two_years _ _ _ _ Hl Hp), Hc; simpl.
    by rewrite slice_to_nonneg.
Qed.

Lemma calculate_trending_sorted_prefix_witness :
  exists last_year prev_year candidates ordered,
    is_last_year scenario_ranks last_year
    /\ is_prev_year scenario_ranks last_year prev_year
    /\ trending_candidates scenario_ranks last_year prev_year = Ok candidates
    /\ ordered ≡ₚ candidates
    /\ StronglySorted trend_before ordered
    /\ calculate_trending scenario_ranks 1 = Ok (take (Z.to_nat 1) ordered).
Proof.
  apply calculate_trending_sorted_prefix;
    [apply scenario_ranks_wf | apply scenario_years_occur | lia].
Defined.

Lemma scenario_last_year : is_last_year scenario_ranks 2022.
Proof.
  destruct (comparison_years _ scenario_years_occur)
    as (l & p & Hl & _ & _ & Hmax & _).
  vm_compute in Hmax. by injection Hmax as <-.
Qed.

Lemma scenario_prev_year : is_prev_year scenario_ranks 2022 2021.
Proof.
  destruct (comparison_years _ scenario_years_occur)
    as (l & p & Hl & Hp & _ & Hmax & Hmax').
  vm_compute in Hmax. injection Hmax as <-.
  vm_compute in Hmax'. by injection Hmax' as <-.
Qed.

Lemma rank_of_elem ranks s by_name e year_ranks :
  Dict.get s ranks = Some by_name -> Dict.wf by_name -> sex e = s ->
  (name e, year_ranks) ∈ by_name ->
  forall y, rank_of ranks (sex e) (name e) y = Dict.get y year_ranks.
Proof.
  intros Hs Hwf -> Hin y. unfold rank_of. rewrite Hs; simpl.
  by rewrite (dict_elem_get _ _ _ Hwf Hin).
Qed.

(** C2. A (name, sex) pair contributes an entry exactly when the name has
    a rank for both comparison years under that sex; the entry carries
    these two ranks and [improvement = rank[prev_year] - rank[last_year]].
    Whatever the requested count, the returned list holds candidates
    only, so a name missing either year never appears in it. *)
Theorem candidate_iff_both_years ranks last_year prev_year :
  RankTable_wf ranks ->
  is_last_year ranks last_year -> is_prev_year ranks last_year prev_year ->
  exists candidates,
    trending_candidates ranks last_year prev_year = Ok candidates
    /\ (forall e, e ∈ candidates <->
          rank_of ranks (sex e) (name e) last_year = Some (current_rank e)
          /\ rank_of ranks (sex e) (name e) prev_year = Some (prev_rank e)
          /\ improvement e = prev_rank e - current_rank e)
    /\ (forall n s,
          (exists e, e ∈ candidates /\ name e = n /\ sex e = s) <->
          is_Some (rank_of ranks s n last_year)
          /\ is_Some (rank_of ranks s n prev_year))
    /\ (forall top_n, exists trend_list,
          calculate_trending ranks top_n = Ok trend_list
          /\ forall e, e ∈ trend_list -> e ∈ candidates).
Proof.
  intros [Hkeys Hwf] Hl Hp.
  destruct (proj2 (Hkeys "M")) as [males Hm]; [by left|].
  destruct (proj2 (Hkeys "F")) as [females Hf]; [by right|].
  set (cands := qualifying last_year prev_year "M" males
                ++ qualifying last_year prev_year "F" females).
  assert (trending_candidates ranks last_year prev_year = Ok cands) as Hc
    by (apply trending_candidates_Ok; by exists males, females).
  assert (forall e, e ∈ cands <->
            rank_of ranks (sex e) (name e) last_year = Some (current_rank e)
            /\ rank_of ranks (sex e) (name e) prev_year = Some (prev_rank e)
            /\ improvement e = prev_rank e - current_rank e) as Hiff.
  { intros e. unfold cands. rewrite elem_of_app, !elem_of_qualifying. split.
    - intros [(Hs & yr & Hin & Hc' & Hp' & Hi)|(Hs & yr & Hin & Hc' & Hp' & Hi)].
      + rewrite !(rank_of_elem _ _ _ _ _ Hm (Hwf _ _ Hm) Hs Hin). done.
      + rewrite !(rank_of_elem _ _ _ _ _ Hf (Hwf _ _ Hf) Hs Hin). done.
    - intros (Hc' & Hp' & Hi). unfold rank_of in Hc', Hp'.
      destruct (Dict.get (sex e) ranks) as [by_name|] eqn:Hs; [|done].
      simpl in Hc', Hp'.
      destruct (Dict.get (name e) by_name) as [yr|] eqn:Hn; [|done].
      simpl in Hc', Hp'. apply dict_get_Some_elem in Hn.
      destruct (proj1 (Hkeys (sex e))) as [HM|HF]; [by rewrite Hs| |].
      + left. split; [done|]. rewrite HM, Hm in Hs. injection Hs as <-.
        by exists yr.
      + right. split; [done|]. rewrite HF, Hf in Hs. injection Hs as <-.
        by exists yr. }
  exists cands. split_and!; [done | done | |].
  - intros n s. split.
    + intros (e & He & <- & <-). apply Hiff in He as (-> & -> & _). eauto.
    + intros [[c Hc'] [p Hp']]. exists (mkTrend n s c p (p - c)).
      split; [|done]. apply Hiff. by simpl.
  - intros top_n. rewrite (calculate_trending_two_years _ _ _ _ Hl Hp), Hc; simpl.
    eexists. split; [done|]. intros e He.
    destruct (slice_to_take top_n (sorted trend_key key3_ltb cands)) as [m Hm'].
    rewrite Hm' in He. apply elem_of_take in He as (? & He & _).
    apply list_elem_of_lookup_2 in He. by apply elem_of_sorted in He.
Qed.

Lemma candidate_iff_both_years_witness :
  exists candidates,
    trending_candidates scenario_ranks 2022 2021 = Ok candidates
    /\ (forall e, e ∈ candidates <->
          rank_of scenario_ranks (sex e) (name e) 2022 = Some (current_rank e)
          /\ rank_of scenario_ranks (sex e) (name e) 2021 = Some (prev_rank e)
          /\ improvement e = prev_rank e - current_rank e)
    /\ (forall n s,
          (exists e, e ∈ candidates /\ name e = n /\ sex e = s) <->
          is_Some (rank_of scenario_ranks s n 2022)
          /\ is_Some (rank_of scenario_ranks s n 2021))
    /\ (forall top_n, exists trend_list,
          calculate_trending scenario_ranks top_n = Ok trend_list
          /\ forall e, e ∈ trend_list -> e ∈ candidates).
Proof.
  apply candidate_iff_both_years;
    [apply scenario_ranks_wf | apply scenario_last_year | apply scenario_prev_year].
Defined.

(** C7, as the code has it: a request of zero entries returns the empty
    list, while a negative request drops that many entries from the end
    of the sorted candidate list, as the slice [trending_list[:top_n]]
    does. *)
Theorem calculate_trending_nonpositive ranks :
  RankTable_wf ranks ->
  exists ordered,
    (forall m, Z.of_nat (length ordered) <= m ->
               calculate_trending ranks m = Ok ordered)
    /\ calculate_trending ranks 0 = Ok []
    /\ forall n, n < 0 ->
         calculate_trending ranks n
         = Ok (take (length ordered - Z.to_nat (- n)) ordered).
Proof.
  intros [Hkeys _].
  destruct (bool_decide (size (all_years ranks) < 2)%nat) eqn:Hsz.
  - exists []. unfold calculate_trending. rewrite Hsz. by split_and!.
  - destruct (comparison_years _ (two_sizes_two_years _ Hsz))
      as (last & prev & Hl & Hp & _).
    destruct (proj2 (Hkeys "M")) as [males Hm]; [by left|].
    destruct (proj2 (Hkeys "F")) as [females Hf]; [by right|].
    set (cands := qualifying last prev "M" males
                  ++ qualifying last prev "F" females).
    assert (trending_candidates ranks last prev = Ok cands) as Hc
      by (apply trending_candidates_Ok; by exists males, females).
    exists (sorted trend_key key3_ltb cands).
    split_and!; [intros m Hlen | | intros n Hn];
      rewrite (calculate_trending_two_years _ _ _ _ Hl Hp), Hc; simpl;
      [f_equal | done | f_equal].
    + rewrite slice_to_nonneg by lia. apply take_ge. lia.
    + unfold slice_to. destruct (Z.leb_spec 0 n); [lia|]. f_equal. lia.
Qed.

Lemma calculate_trending_nonpositive_witness :
  exists ordered,
    (forall m, Z.of_nat (length ordered) <= m ->
               calculate_trending scenario_ranks m = Ok ordered)
    /\ calculate_trending scenario_ranks 0 = Ok []
    /\ forall n, n < 0 ->
         calculate_trending scenario_ranks n
         = Ok (take (length ordered - Z.to_nat (- n)) ordered).
Proof. apply calculate_trending_nonpositive, scenario_ranks_wf. Defined.

(** C7 as stated fails: asked for [-1] entries of the two candidates of
    the scenario, [calculate_trending] returns the first of them. *)
Lemma calculate_trending_negative_counterexample :
  -1 <= 0
  /\ calculate_trending scenario_ranks (-1) = Ok [mkTrend "Sam" "M" 1 2 1]
  /\ calculate_trending scenario_ranks (-1) <> Ok [].
Proof. split_and!; [lia | by vm_compute | by vm_compute]. Qed.

(** C10. Two returned entries that agree on improvement, current rank
    and name, one of sex "M" and one of sex "F", stand in that order. *)
Theorem male_entry_precedes_female ranks top_n trend_list i j e1 e2 :
  calculate_trending ranks top_n = Ok trend_list ->
  trend_list !! i = Some e1 -> trend_list !! j = Some e2 ->
  sex e1 = "M" -> sex e2 = "F" ->
  improvement e1 = improvement e2 -> current_rank e1 = current_rank e2 ->
  name e1 = name e2 ->
  (i < j)%nat.
Proof.
  intros Hrun Hi Hj S1 S2 Himp Hcur Hname. unfold calculate_trending in Hrun.
  destruct (bool_decide (size (all_years ranks) < 2)%nat).
  { injection Hrun as <-. done. }
  destruct (py_max (elements (all_years ranks))) as [last|]; [|done].
  simpl in Hrun.
  destruct (py_max (filter _ _)) as [prev|]; [|done]. simpl in Hrun.
  destruct (trending_candidates ranks last prev) as [cands|] eqn:Hc; [|done].
  simpl in Hrun. injection Hrun as <-.
  apply trending_candidates_Ok in Hc as (males & females & _ & _ & ->).
  destruct (slice_to_take top_n
              (sorted trend_key key3_ltb
                 (qualifying last prev "M" males
                  ++ qualifying last prev "F" females))) as [m Hm].
  rewrite Hm in Hi, Hj.
  apply lookup_take_Some in Hi as [Hi _], Hj as [Hj _].
  eapply (male_before_female (has_key trend_key (trend_key e1)));
    [ | | | exact Hi | exact Hj | | | done | done].
  - rewrite (sorted_stable trend_key key3_ltb). apply filter_app.
  - apply Forall_forall. intros e He. apply list_elem_of_filter in He as [_ He].
    by apply elem_of_qualifying in He as [? _].
  - apply Forall_forall. intros e He. apply list_elem_of_filter in He as [_ He].
    by apply elem_of_qualifying in He as [? _].
  - done.
  - unfold has_key, trend_key. by rewrite Himp, Hcur, Hname.
Qed.

Lemma male_entry_precedes_female_witness :
  calculate_trending both_sexes_ranks 3
  = Ok [mkTrend "Riley" "M" 1 2 1; mkTrend "Riley" "F" 1 2 1;
        mkTrend "Emma" "F" 2 1 (-1)]
  /\ (0 < 1)%nat.
Proof.
  assert (calculate_trending both_sexes_ranks 3
          = Ok [mkTrend "Riley" "M" 1 2 1; mkTrend "Riley" "F" 1 2 1;
                mkTrend "Emma" "F" 2 1 (-1)]) as Hrun by (by vm_compute).
  split; [exact Hrun|].
  apply (male_entry_precedes_female both_sexes_ranks 3 _ 0 1
           (mkTrend "Riley" "M" 1 2 1) (mkTrend "Riley" "F" 1 2 1) Hrun);
    reflexivity.
Defined.

(** ** Facts about [compute_ranks] *)

Lemma for_each_ext {A S : Type} (f g : S -> A -> result S) s l :
  (forall s a, f s a = g s a) -> for_each f s l = for_each g s l.
Proof.
  intros Hfg. revert s. induction l as [|a l IH]; intros s; simpl; [done|].
  rewrite Hfg. destruct (g s a); simpl; [apply IH | done].
Qed.

Lemma for_each_map {A B S : Type} (f : S -> B -> result S) (g : A -> B) s l :
  for_each f s (map g l) = for_each (fun s a => f s (g a)) s l.
Proof.
  revert s. induction l as [|a l IH]; intros s; simpl; [done|].
  destruct (f s (g a)); simpl; [apply IH | done].
Qed.

Lemma for_each_flat_map {A B S : Type} (f : S -> B -> result S)
    (g : A -> list B) s l :
  for_each f s (flat_map g l) = for_each (fun s a => for_each f s (g a)) s l.
Proof.
  revert s. induction l as [|a l IH]; intros s; simpl; [done|].
  rewrite for_each_app. destruct (for_each f s (g a)); simpl; [apply IH | done].
Qed.

(** The three nested loops run the assignments one after the other. *)
Lemma compute_ranks_assignments years :
  compute_ranks years = for_each assign initial_ranks (assignments years).
Proof.
  unfold compute_ranks, assignments. rewrite for_each_flat_map.
  apply for_each_ext. intros r [year sex_data]. unfold rank_year, year_assignments.
  rewrite for_each_flat_map. apply for_each_ext. intros r' [s names_counts].
  unfold rank_group, group_assignments. by rewrite for_each_map.
Qed.

Lemma store_rank_spec year s ranks rank n c :
  is_Some (Dict.get s ranks) ->
  exists r, store_rank year s ranks (rank, (n, c)) = Ok r
    /\ (forall s', is_Some (Dict.get s' r) <-> is_Some (Dict.get s' ranks))
    /\ forall s' n' y',
         rank_of r s' n' y'
         = if decide (s = s' /\ n = n' /\ year = y') then Some rank
           else rank_of ranks s' n' y'.
Proof.
  intros [by_name Hs]. unfold store_rank. rewrite Hs; simpl.
  eexists. split; [done|]. split.
  - intros s'. rewrite dict_get_set. case_decide; [subst|done].
    rewrite Hs. split; eauto.
  - intros s' n' y'. unfold rank_of. rewrite dict_get_set.
    destruct (decide (s = s')) as [<-|Hne]; simpl.
    + rewrite Hs; simpl. rewrite dict_get_set.
      destruct (decide (n = n')) as [<-|Hne]; simpl.
      * rewrite dict_get_set. destruct (decide (year = y')) as [<-|Hne].
        -- by rewrite decide_True.
        -- rewrite decide_False by tauto. by destruct (Dict.get n by_name).
      * by rewrite decide_False by tauto.
    + by rewrite decide_False by tauto.
Qed.

Lemma for_each_assign_spec asg ranks :
  (forall year s e, (year, s, e) ∈ asg -> is_Some (Dict.get s ranks)) ->
  exists r, for_each assign ranks asg = Ok r
    /\ (forall s, is_Some (Dict.get s r) <-> is_Some (Dict.get s ranks))
    /\ forall s n y,
         rank_of r s n y
         = match last_assigned s n y asg with
           | Some k => Some k
           | None => rank_of ranks s n y
           end.
Proof.
  revert ranks. induction asg as [|[[year s] [rank [n c]]] asg IH];
    intros ranks Hsex.
  - by exists ranks.
  - destruct (store_rank_spec year s ranks rank n c) as (r1 & Hr1 & Hk1 & Hv1).
    { eapply Hsex, list_elem_of_here. }
    cbn [for_each last_assigned].
    change (assign ranks (year, s, (rank, (n, c))))
      with (store_rank year s ranks (rank, (n, c))).
    rewrite Hr1; simpl. destruct (IH r1) as (r & Hr & Hk & Hv).
    { intros y' s' e' Hin. apply Hk1. eapply Hsex, list_elem_of_further, Hin. }
    exists r. split; [done|]. split.
    + intros s'. by rewrite Hk, Hk1.
    + intros s' n' y'. rewrite Hv, Hv1.
      destruct (last_assigned s' n' y' asg); [done|].
      by destruct (decide (s = s' /\ n = n' /\ year = y')).
Qed.

Lemma last_assigned_Some s n y asg k :
  last_assigned s n y asg = Some k -> exists c, (y, s, (k, (n, c))) ∈ asg.
Proof.
  induction asg as [|[[year s'] [rank [n' c]]] asg IH]; simpl; [done|].
  destruct (last_assigned s n y asg) as [k'|].
  - intros [= <-]. destruct IH as [c' Hc]; [done|].
    exists c'. by apply list_elem_of_further.
  - case_decide as Hd; [|done]. destruct Hd as (-> & -> & ->).
    intros [= <-]. exists c. apply list_elem_of_here.
Qed.

Lemma last_assigned_elem s n y asg k c :
  (y, s, (k, (n, c))) ∈ asg -> is_Some (last_assigned s n y asg).
Proof.
  induction asg as [|[[year s'] [rank [n' c']]] asg IH]; simpl.
  - intros H. by apply not_elem_of_nil in H.
  - intros Hin. apply elem_of_cons in Hin as [Heq|Hin].
    + injection Heq as <- <- <- <- <-.
      destruct (last_assigned s n y asg); [eauto|].
      rewrite decide_True by done. eauto.
    + destruct (IH Hin) as [k' ->]. eauto.
Qed.

Lemma elem_of_enumerate {A : Type} (start k : Z) (x : A) (l : list A) :
  (k, x) ∈ enumerate start l <->
  exists i : nat, l !! i = Some x /\ k = start + Z.of_nat i.
Proof.
  revert start. induction l as [|a l IH]; intros start; simpl.
  - split; [intros H; by apply not_elem_of_nil in H | by intros (? & ? & _)].
  - rewrite elem_of_cons, IH. split.
    + intros [[= -> ->]|(i & Hi & ->)].
      * exists 0%nat. split; [done | lia].
      * exists (S i). split; [done | lia].
    + intros ([|i] & Hi & ->); simpl in Hi.
      * injection Hi as ->. left. f_equal. lia.
      * right. exists i. split; [done | lia].
Qed.

Lemma elem_of_assignments years year s e :
  (year, s, e) ∈ assignments years <->
  exists sex_data names_counts,
    (year, sex_data) ∈ years /\ (s, names_counts) ∈ sex_data
    /\ e ∈ enumerate 1 (sorted_names names_counts).
Proof.
  unfold assignments, Dict.items. rewrite list_elem_of_In, in_flat_map. split.
  - intros ([y sd] & Hy & Hin). unfold year_assignments, Dict.items in Hin.
    apply in_flat_map in Hin as ([s' nc] & Hs & Hin).
    unfold group_assignments in Hin. apply in_map_iff in Hin as (e' & [= <- <- <-] & He).
    exists sd, nc. by rewrite !list_elem_of_In.
  - intros (sd & nc & Hy & Hs & He). exists (year, sd).
    split; [by apply list_elem_of_In|]. unfold year_assignments, Dict.items.
    apply in_flat_map. exists (s, nc). split; [by apply list_elem_of_In|].
    unfold group_assignments. apply in_map_iff. exists e.
    split; [done | by apply list_elem_of_In].
Qed.

Lemma initial_ranks_keys s :
  is_Some (Dict.get s initial_ranks) <-> s = "M" \/ s = "F".
Proof.
  unfold initial_ranks; simpl. repeat case_decide; subst; split; intros Hs; eauto;
    solve [by destruct Hs as [? [=]] | by destruct Hs].
Qed.

Lemma rank_of_initial_ranks s n y : rank_of initial_ranks s n y = None.
Proof. unfold rank_of, initial_ranks; simpl. by repeat case_decide. Qed.

Lemma group_Some years year s names :
  YearCountTable_wf years ->
  group years year s = Some names <->
  exists sex_data, (year, sex_data) ∈ years /\ (s, names) ∈ sex_data.
Proof.
  intros [Hwf Hin]. unfold group. split.
  - destruct (Dict.get year years) as [sd|] eqn:Hy; [|done]. simpl.
    intros Hs. exists sd. split; by apply dict_get_Some_elem.
  - intros (sd & Hy & Hs). rewrite (dict_elem_get _ _ _ Hwf Hy); simpl.
    apply dict_elem_get; [|done]. by apply (Hin _ _ Hy).
Qed.

Lemma group_wf years year s names :
  YearCountTable_wf years -> group years year s = Some names -> Dict.wf names.
Proof.
  intros Hwf Hg. apply (group_Some _ _ _ _ Hwf) in Hg as (sd & Hy & Hs).
  destruct Hwf as [_ Hin]. by apply (Hin _ _ Hy) in Hs.
Qed.

Lemma sorted_names_Permutation names : sorted_names names ≡ₚ names.
Proof. apply sorted_Permutation. Qed.

Lemma sorted_names_lookup_inj names i j n c c' :
  Dict.wf names ->
  sorted_names names !! i = Some (n, c) ->
  sorted_names names !! j = Some (n, c') -> i = j.
Proof.
  intros Hwf Hi Hj.
  assert (NoDup (sorted_names names).*1) as Hnd.
  { unfold Dict.wf, Dict.keys in Hwf. by rewrite sorted_names_Permutation. }
  apply (NoDup_lookup _ i j n Hnd); rewrite list_lookup_fmap.
  - by rewrite Hi.
  - by rewrite Hj.
Qed.

Lemma sorted_names_elem names n c :
  Dict.wf names ->
  (exists i, sorted_names names !! i = Some (n, c)) <-> Dict.get n names = Some c.
Proof.
  intros Hwf. rewrite <- list_elem_of_lookup, sorted_names_Permutation. split.
  - by apply dict_elem_get.
  - apply dict_get_Some_elem.
Qed.

(** The rank stored for a name is its position, counted from one, in the
    sorted sequence of its year and sex. *)
Lemma compute_ranks_spec years :
  YearCountTable_wf years -> two_sexes years ->
  exists ranks, compute_ranks years = Ok ranks
    /\ (forall s, is_Some (Dict.get s ranks) <-> s = "M" \/ s = "F")
    /\ forall s n y k,
         rank_of ranks s n y = Some k <->
         exists names c (i : nat),
           group years y s = Some names
           /\ sorted_names names !! i = Some (n, c)
           /\ k = 1 + Z.of_nat i.
Proof.
  intros Hwf Hsex. rewrite compute_ranks_assignments.
  destruct (for_each_assign_spec (assignments years) initial_ranks)
    as (r & Hr & Hk & Hv).
  { intros y s e Hin. apply elem_of_assignments in Hin as (sd & nc & Hy & Hs & _).
    apply initial_ranks_keys. by eapply Hsex. }
  exists r. split; [done|]. split.
  { intros s. by rewrite Hk, initial_ranks_keys. }
  intros s n y k. rewrite Hv, rank_of_initial_ranks. split.
  - destruct (last_assigned s n y (assignments years)) as [k'|] eqn:Hl; [|done].
    intros [= ->]. apply last_assigned_Some in Hl as [c Hin].
    apply elem_of_assignments in Hin as (sd & nc & Hy & Hs & He).
    apply elem_of_enumerate in He as (i & Hi & ->).
    exists nc, c, i. split; [|done]. apply group_Some; [done|]. by exists sd.
  - intros (nc & c & i & Hg & Hi & ->).
    pose proof (group_wf _ _ _ _ Hwf Hg) as Hnc.
    pose proof Hg as Hg'.
    apply (group_Some _ _ _ _ Hwf) in Hg' as (sd & Hy & Hs).
    assert ((y, s, (1 + Z.of_nat i, (n, c))) ∈ assignments years) as Hin.
    { apply elem_of_assignments. exists sd, nc. split_and!; [done|done|].
      apply elem_of_enumerate. by exists i. }
    destruct (last_assigned_elem _ _ _ _ _ _ Hin) as [k' Hl]. rewrite Hl.
    apply last_assigned_Some in Hl as [c' Hin'].
    apply elem_of_assignments in Hin' as (sd' & nc' & Hy' & Hs' & He').
    apply elem_of_enumerate in He' as (i' & Hi' & ->).
    assert (group years y s = Some nc') as Hg''
      by (apply group_Some; [done|]; by exists sd').
    rewrite Hg in Hg''. injection Hg'' as <-.
    by rewrite (sorted_names_lookup_inj _ _ _ _ _ _ Hnc Hi Hi').
Qed.

Lemma YearCountTable_wf_Forall (years : YearCountTable) :
  Dict.wf years
  /\ Forall (fun p => Dict.wf p.2 /\ Forall (fun q => Dict.wf q.2) p.2) years ->
  YearCountTable_wf years.
Proof.
  intros [Hwf Hall]. split; [done|]. intros year sd Hin.
  rewrite Forall_forall in Hall. destruct (Hall _ Hin) as [Hsd Hn].
  split; [done|]. intros s names Hs. rewrite Forall_forall in Hn.
  apply (Hn _ Hs).
Qed.

Lemma two_sexes_Forall (years : YearCountTable) :
  Forall (fun p => Forall (fun q => q.1 = "M" \/ q.1 = "F") p.2) years ->
  two_sexes years.
Proof.
  intros Hall year sd s names Hy Hs. rewrite Forall_forall in Hall.
  pose proof (Hall _ Hy) as Hsd. rewrite Forall_forall in Hsd.
  apply (Hsd _ Hs).
Qed.

Lemma scenario_years_wf : YearCountTable_wf scenario_years.
Proof. apply YearCountTable_wf_Forall, (bool_decide_unpack _). by vm_compute. Qed.

Lemma scenario_years_two_sexes : two_sexes scenario_years.
Proof. apply two_sexes_Forall, (bool_decide_unpack _). by vm_compute. Qed.

(** ** Properties of the rank calculation *)

(** The order of names is that of the character codes: capitals come
    before small letters, and a proper prefix before its extensions. *)
Example str_ltb_case_sensitive :
  str_ltb "Zoe" "adam" = true /\ str_ltb "adam" "Zoe" = false
  /\ str_ltb "Al" "Alex" = true.
Proof. by vm_compute. Qed.

(** C3. In every group of a year and a sex, the ranks [compute_ranks]
    assigns are exactly 1, ..., K for the K names of the group: every
    such number is the rank of a name, no two names share a rank, and the
    names ranked are the names of the group, whatever their counts. *)
Theorem compute_ranks_dense years year s names :
  YearCountTable_wf years -> two_sexes years ->
  group years year s = Some names ->
  exists ranks, compute_ranks years = Ok ranks
    /\ (forall k, (exists n, rank_of ranks s n year = Some k)
                  <-> 1 <= k <= Z.of_nat (length names))
    /\ (forall n1 n2 k, rank_of ranks s n1 year = Some k ->
                        rank_of ranks s n2 year = Some k -> n1 = n2)
    /\ (forall n, is_Some (rank_of ranks s n year)
                  <-> is_Some (Dict.get n names)).
Proof.
  intros Hwf Hsex Hg. pose proof (group_wf _ _ _ _ Hwf Hg) as Hnames.
  destruct (compute_ranks_spec years Hwf Hsex) as (ranks & Hrun & _ & Hrank).
  exists ranks. split; [done|]. split_and!.
  - intros k. split.
    + intros (n & Hn). apply Hrank in Hn as (nc & c & i & Hg' & Hi & ->).
      rewrite Hg in Hg'. injection Hg' as <-.
      apply lookup_lt_Some in Hi. unfold sorted_names in Hi.
      rewrite sorted_length in Hi. unfold Dict.items in Hi. lia.
    + intros Hk.
      destruct (lookup_lt_is_Some_2 (sorted_names names) (Z.to_nat (k - 1)))
        as [[n c] Hi].
      { unfold sorted_names. rewrite sorted_length. unfold Dict.items. lia. }
      exists n. apply Hrank. exists names, c, (Z.to_nat (k - 1)).
      split_and!; [done | done | lia].
  - intros n1 n2 k H1 H2.
    apply Hrank in H1 as (nc1 & c1 & i1 & Hg1 & Hi1 & ->).
    apply Hrank in H2 as (nc2 & c2 & i2 & Hg2 & Hi2 & Heq).
    rewrite Hg in Hg1, Hg2. injection Hg1 as <-. injection Hg2 as <-.
    assert (i1 = i2) as -> by lia. congruence.
  - intros n. split.
    + intros [k Hk]. apply Hrank in Hk as (nc & c & i & Hg' & Hi & ->).
      rewrite Hg in Hg'. injection Hg' as <-. exists c.
      apply sorted_names_elem; eauto.
    + intros [c Hc]. apply sorted_names_elem in Hc as [i Hi]; [|done].
      exists (1 + Z.of_nat i). apply Hrank. by exists names, c, i.
Qed.

Lemma compute_ranks_dense_witness :
  exists ranks, compute_ranks scenario_years = Ok ranks
    /\ (forall k, (exists n, rank_of ranks "M" n 2021 = Some k)
                  <-> 1 <= k <= Z.of_nat (length [("Alex", 100); ("Sam", 100)]))
    /\ (forall n1 n2 k, rank_of ranks "M" n1 2021 = Some k ->
                        rank_of ranks "M" n2 2021 = Some k -> n1 = n2)
    /\ (forall n, is_Some (rank_of ranks "M" n 2021)
                  <-> is_Some (Dict.get n [("Alex", 100); ("Sam", 100)])).
Proof.
  apply compute_ranks_dense;
    [apply scenario_years_wf | apply scenario_years_two_sexes | reflexivity].
Defined.

(** C4. Within a year and a sex, a name with a larger count gets the
    smaller rank, and of two names with equal counts the one that is
    smaller in the order of strings gets the smaller rank. *)
Theorem compute_ranks_order years year s names n1 n2 c1 c2 :
  YearCountTable_wf years -> two_sexes years ->
  group years year s = Some names ->
  Dict.get n1 names = Some c1 -> Dict.get n2 names = Some c2 ->
  exists ranks k1 k2, compute_ranks years = Ok ranks
    /\ rank_of ranks s n1 year = Some k1
    /\ rank_of ranks s n2 year = Some k2
    /\ (c1 > c2 -> k1 < k2)
    /\ (c1 = c2 -> String.ltb n1 n2 = true -> k1 < k2).
Proof.
  intros Hwf Hsex Hg H1 H2. pose proof (group_wf _ _ _ _ Hwf Hg) as Hnames.
  destruct (compute_ranks_spec years Hwf Hsex) as (ranks & Hrun & _ & Hrank).
  apply sorted_names_elem in H1 as [i1 Hi1]; [|done].
  apply sorted_names_elem in H2 as [i2 Hi2]; [|done].
  exists ranks, (1 + Z.of_nat i1), (1 + Z.of_nat i2).
  split_and!; [done | apply Hrank; by exists names, c1, i1
              | apply Hrank; by exists names, c2, i2 | |].
  - intros Hc. destruct (decide (i1 < i2)%nat) as [?|Hge]; [lia|]. exfalso.
    assert (key_le count_key key2_ltb (n2, c2) (n1, c1)) as Hle.
    { eapply (StronglySorted_lookup_le count_key key2_ltb);
        [apply sorted_StronglySorted, _ | exact Hi2 | exact Hi1 | lia]. }
    unfold key_le, key2_ltb, count_key in Hle; simpl in Hle.
    apply orb_false_iff in Hle as [Hle _]. apply Z.ltb_ge in Hle. lia.
  - intros -> Hlt. destruct (decide (i1 < i2)%nat) as [?|Hge]; [lia|]. exfalso.
    assert (key_le count_key key2_ltb (n2, c2) (n1, c2)) as Hle.
    { eapply (StronglySorted_lookup_le count_key key2_ltb);
        [apply sorted_StronglySorted, _ | exact Hi2 | exact Hi1 | lia]. }
    unfold key_le, key2_ltb, count_key, str_ltb in Hle; simpl in Hle.
    rewrite Z.ltb_irrefl, Z.eqb_refl, Hlt in Hle. done.
Qed.

Lemma compute_ranks_order_witness :
  exists ranks k1 k2, compute_ranks scenario_years = Ok ranks
    /\ rank_of ranks "M" "Alex" 2021 = Some k1
    /\ rank_of ranks "M" "Sam" 2021 = Some k2
    /\ (100 > 100 -> k1 < k2)
    /\ (100 = 100 -> String.ltb "Alex" "Sam" = true -> k1 < k2).
Proof.
  apply (compute_ranks_order scenario_years 2021 "M"
           [("Alex", 100); ("Sam", 100)]);
    [apply scenario_years_wf | apply scenario_years_two_sexes
    | reflexivity | reflexivity | reflexivity].
Defined.

(** C9. On the table without years [compute_ranks] raises nothing and
    returns a table that holds no rank: both sexes map to no name. *)
Theorem compute_ranks_empty :
  exists ranks, compute_ranks Dict.empty = Ok ranks
    /\ (forall s n year, rank_of ranks s n year = None)
    /\ (forall s by_name, Dict.get s ranks = Some by_name -> by_name = []).
Proof.
  exists initial_ranks. split_and!; [done | apply rank_of_initial_ranks |].
  intros s by_name. unfold initial_ranks; simpl.
  repeat case_decide; by intros [= <-].
Qed.

(** C6, as the code has it: on a table whose sex codes are all "M" or
    "F", [compute_ranks] raises nothing and stores a rank under
    [ranks[sex][name][year]] for every count of the table. *)
Theorem compute_ranks_total_two_sexes years :
  YearCountTable_wf years -> two_sexes years ->
  exists ranks, compute_ranks years = Ok ranks
    /\ forall year s n c,
         count_of years year s n = Some c -> is_Some (rank_of ranks s n year).
Proof.
  intros Hwf Hsex.
  destruct (compute_ranks_spec years Hwf Hsex) as (ranks & Hrun & _ & Hrank).
  exists ranks. split; [done|]. intros year s n c Hc.
  unfold count_of in Hc.
  destruct (Dict.get year years) as [sd|] eqn:Hy; [|done]. simpl in Hc.
  destruct (Dict.get s sd) as [names|] eqn:Hs; [|done]. simpl in Hc.
  assert (group years year s = Some names) as Hg
    by (unfold group; rewrite Hy; simpl; done).
  apply sorted_names_elem in Hc as [i Hi]; [|by eapply group_wf].
  exists (1 + Z.of_nat i). apply Hrank. by exists names, c, i.
Qed.

Lemma compute_ranks_total_two_sexes_witness :
  exists ranks, compute_ranks scenario_years = Ok ranks
    /\ forall year s n c,
         count_of scenario_years year s n = Some c ->
         is_Some (rank_of ranks s n year).
Proof.
  apply compute_ranks_total_two_sexes;
    [apply scenario_years_wf | apply scenario_years_two_sexes].
Defined.

(** ** Facts about [parse_names] *)

Lemma count_of_store_count years year s n c year' s' n' :
  count_of (store_count years year s n c) year' s' n'
  = if decide (year = year' /\ s = s' /\ n = n') then Some c
    else count_of years year' s' n'.
Proof.
  unfold count_of, store_count. rewrite dict_get_set.
  destruct (decide (year = year')) as [<-|Hne]; simpl.
  - rewrite dict_get_set. destruct (decide (s = s')) as [<-|Hne]; simpl.
    + rewrite dict_get_set. destruct (decide (n = n')) as [<-|Hne].
      * by rewrite decide_True.
      * rewrite decide_False by tauto.
        destruct (Dict.get year years) as [sd|]; simpl; [|done].
        by destruct (Dict.get s sd).
    + rewrite decide_False by tauto.
      by destruct (Dict.get year years).
  - by rewrite decide_False by tauto.
Qed.

Lemma count_of_store_all years recs year s n :
  count_of (foldl store_record years recs) year s n
  = match last_seen year s n recs with
    | Some c => Some c
    | None => count_of years year s n
    end.
Proof.
  revert years. induction recs as [|[[[y' s'] n'] c] recs IH]; intros years.
  - done.
  - cbn [foldl last_seen]. rewrite IH.
    destruct (last_seen year s n recs); [done|].
    unfold store_record. rewrite count_of_store_count.
    by destruct (decide (y' = year /\ s' = s /\ n' = n)).
Qed.

Section parse_names_facts.
Variable int : string -> option Z.

Lemma parse_rows_records year rows recs years :
  rows_records int year rows = Some recs ->
  for_each (parse_row int year) years rows = Ok (foldl store_record years recs).
Proof.
  revert recs years. induction rows as [|r rows IH]; intros recs years.
  - by intros [= <-].
  - cbn [rows_records for_each].
    destruct (row_record int year r) as [rec|] eqn:Hrow; [|done]. simpl.
    destruct (rows_records int year rows) as [recs'|]; [|done]. simpl.
    intros [= <-]. unfold row_record in Hrow.
    destruct r as [|n [|s [|count [|]]]]; try done.
    destruct (int count) as [c|] eqn:Hint; [|done].
    simpl in Hrow. injection Hrow as <-.
    cbn [parse_row]. rewrite Hint. simpl. by apply IH.
Qed.

Lemma parse_member_records zf filename recs years :
  member_records int zf filename = Some recs ->
  parse_member int zf years filename = Ok (foldl store_record years recs).
Proof.
  unfold member_records, parse_member, zf_open.
  destruct (negb (startswith filename "yob") || negb (endswith filename ".txt")).
  { by intros [= <-]. }
  destruct (int (substring 3 4 filename)) as [year|]; [|done]. simpl.
  destruct (Dict.get filename (reverse zf)) as [rows|]; [|done]. simpl.
  apply parse_rows_records.
Qed.

Lemma parse_members_records zf filenames recs years :
  members_records int zf filenames = Some recs ->
  for_each (parse_member int zf) years filenames
  = Ok (foldl store_record years recs).
Proof.
  revert recs years. induction filenames as [|fn fns IH]; intros recs years.
  - by intros [= <-].
  - cbn [members_records for_each].
    destruct (member_records int zf fn) as [recs1|] eqn:H1; [|done]. simpl.
    destruct (members_records int zf fns) as [recs2|]; [|done]. simpl.
    intros [= <-]. rewrite (parse_member_records _ _ _ _ H1); simpl.
    rewrite foldl_app. by apply IH.
Qed.

(** C8. When every record of the archive is well formed, so that the
    records can be listed at all, [parse_names] raises nothing, however
    often a year, sex and name recur, and the table maps each of them to
    the count of the last record read for it. *)
Theorem parse_names_last_seen_wins zf recs :
  archive_records int zf = Some recs ->
  exists years, parse_names int zf = Ok years
    /\ forall year s n, count_of years year s n = last_seen year s n recs.
Proof.
  intros Hrecs. exists (foldl store_record Dict.empty recs). split.
  - by apply parse_members_records.
  - intros year s n. rewrite count_of_store_all.
    by destruct (last_seen year s n recs).
Qed.
End parse_names_facts.

Lemma parse_names_last_seen_wins_witness :
  exists years, parse_names int_digits repeated_archive = Ok years
    /\ forall year s n,
         count_of years year s n
         = last_seen year s n
             [(2022, "M", "Alex", 5); (2022, "M", "Sam", 9);
              (2022, "M", "Alex", 7)].
Proof.
  apply (parse_names_last_seen_wins int_digits repeated_archive). reflexivity.
Defined.

Example parse_names_repeated :
  parse_names int_digits repeated_archive
  = Ok [(2022, [("M", [("Alex", 7); ("Sam", 9)])])].
Proof. vm_compute. reflexivity. Qed.

(** C6 as stated fails: the parser stores the sex code "X" as given, and
    [compute_ranks] raises [KeyError] on the table it returns. *)
Lemma compute_ranks_unknown_sex_counterexample :
  parse_names int_digits unknown_sex_archive = Ok unknown_sex_years
  /\ compute_ranks unknown_sex_years = Raise KeyError.
Proof. split; by vm_compute. Qed.

(** ** The parser's tables are well formed *)

Lemma dict_elem_set {K V : Type} `{EqDecision K} (k k' : K) (v v' : V)
    (d : Dict.t K V) :
  (k', v') ∈ Dict.set k v d -> (k' = k /\ v' = v) \/ (k', v') ∈ d.
Proof.
  induction d as [|[k0 v0] d IH]; simpl.
  - intros Hin. apply list_elem_of_singleton in Hin as [= -> ->]. by left.
  - destruct (decide (k = k0)) as [->|Hne]; intros Hin;
      apply elem_of_cons in Hin as [[= -> ->]|Hin].
    + by left.
    + right. by apply list_elem_of_further.
    + right. apply list_elem_of_here.
    + destruct (IH Hin) as [?|?]; [by left|]. right. by apply list_elem_of_further.
Qed.

Lemma store_count_wf years year s n c :
  YearCountTable_wf years -> YearCountTable_wf (store_count years year s n c).
Proof.
  intros [Hwf Hin]. unfold store_count.
  set (sex_data := default Dict.empty (Dict.get year years)).
  set (names := default Dict.empty (Dict.get s sex_data)).
  assert (Dict.wf sex_data
          /\ forall s' names', (s', names') ∈ sex_data -> Dict.wf names')
    as [Hsd Hnames].
  { unfold sex_data. destruct (Dict.get year years) as [sd|] eqn:Hy; simpl.
    - apply dict_get_Some_elem in Hy. by apply Hin in Hy.
    - split; [apply dict_wf_empty|]. intros ? ? H. by apply not_elem_of_nil in H. }
  assert (Dict.wf names) as Hn.
  { unfold names. destruct (Dict.get s sex_data) as [nc|] eqn:Hs; simpl.
    - apply dict_get_Some_elem in Hs. by apply Hnames in Hs.
    - apply dict_wf_empty. }
  split; [by apply dict_wf_set|]. intros year' sd' Hy'.
  apply dict_elem_set in Hy' as [[-> ->]|Hy']; [|by apply (Hin _ _ Hy')].
  split; [by apply dict_wf_set|]. intros s' names' Hs'.
  apply dict_elem_set in Hs' as [[-> ->]|Hs']; [|by eapply Hnames].
  by apply dict_wf_set.
Qed.

Lemma for_each_invariant {A S : Type} (P : S -> Prop)
    (body : S -> A -> result S) (l : list A) (s s' : S) :
  (forall s a s', P s -> body s a = Ok s' -> P s') ->
  P s -> for_each body s l = Ok s' -> P s'.
Proof.
  intros Hbody. revert s. induction l as [|a l IH]; intros s Hs; simpl.
  - by intros [= <-].
  - destruct (body s a) as [s1|] eqn:H1; [|done]. simpl.
    apply IH. by eapply Hbody.
Qed.

Lemma parse_names_wf int zf years :
  parse_names int zf = Ok years -> YearCountTable_wf years.
Proof.
  unfold parse_names.
  apply (for_each_invariant YearCountTable_wf).
  - intros t filename t' Ht. unfold parse_member.
    destruct (negb (startswith filename "yob") || negb (endswith filename ".txt")).
    { by intros [= <-]. }
    destruct (int (substring 3 4 filename)) as [year|]; [|done]. simpl.
    destruct (zf_open zf filename) as [rows|]; [|done]. simpl.
    revert Ht. apply for_each_invariant.
    intros t1 r t2 Ht1. unfold parse_row.
    destruct r as [|n [|s [|count [|]]]]; try done.
    destruct (int count) as [c|]; [|done]. simpl.
    intros [= <-]. by apply store_count_wf.
  - split; [apply dict_wf_empty|]. intros ? ? H. by apply not_elem_of_nil in H.
Qed.

(** A table is returned only when every record is well formed. *)
Lemma parse_names_Ok_records int zf years :
  parse_names int zf = Ok years -> is_Some (archive_records int zf).
Proof.
  unfold parse_names, archive_records. generalize (namelist zf) as fns.
  generalize (Dict.empty : YearCountTable) as t.
  intros t fns. revert t. induction fns as [|fn fns IH]; intros t; simpl.
  - eauto.
  - destruct (parse_member int zf t fn) as [t1|] eqn:H1; [|done]. simpl.
    intros Hrest. destruct (IH _ Hrest) as [rest ->].
    enough (is_Some (member_records int zf fn)) as [recs ->] by (simpl; eauto).
    clear Hrest IH. revert H1. unfold parse_member, member_records, zf_open.
    destruct (negb (startswith fn "yob") || negb (endswith fn ".txt")); [eauto|].
    destruct (int (substring 3 4 fn)) as [year|]; [|done]. simpl.
    destruct (Dict.get fn (reverse zf)) as [rows|]; [|done]. simpl.
    revert t. induction rows as [|r rows IHr]; intros t; simpl; [eauto|].
    destruct (parse_row int year t r) as [t2|] eqn:H2; [|done]. simpl.
    intros Hrows. destruct (IHr _ Hrows) as [recs ->].
    unfold parse_row in H2. destruct r as [|n [|s [|count [|]]]]; try done.
    simpl. destruct (int count) as [c|]; [|done]. simpl. eauto.
Qed.

(** ** Candidates that agree on the sort key *)

Lemma qualifying_cons last_year prev_year s n year_ranks by_name :
  qualifying last_year prev_year s ((n, year_ranks) :: by_name)
  = match Dict.get last_year year_ranks, Dict.get prev_year year_ranks with
    | Some current, Some prev =>
        mkTrend n s current prev (prev - current)
        :: qualifying last_year prev_year s by_name
    | _, _ => qualifying last_year prev_year s by_name
    end.
Proof.
  unfold qualifying, Dict.items; simpl.
  destruct (Dict.get last_year year_ranks); simpl; [|done].
  by destruct (Dict.get prev_year year_ranks).
Qed.

Lemma qualifying_names_NoDup last_year prev_year s by_name :
  Dict.wf by_name -> NoDup (name <$> qualifying last_year prev_year s by_name).
Proof.
  unfold Dict.wf, Dict.keys.
  induction by_name as [|[n yr] by_name IH]; [intros _; constructor|].
  cbn [map fst]. rewrite NoDup_cons, qualifying_cons. intros [Hn Hnd].
  destruct (Dict.get last_year yr) as [c|]; [|by apply IH].
  destruct (Dict.get prev_year yr) as [p|]; [|by apply IH].
  rewrite fmap_cons. cbn [name]. apply NoDup_cons. split; [|by apply IH].
  intros Hin. apply list_elem_of_fmap in Hin as (e & Hname & He).
  apply elem_of_qualifying in He as (_ & yr' & Hin & _).
  apply Hn. apply list_elem_of_fmap. by exists (name e, yr').
Qed.

(** Two candidates of the same name belong to different sexes: a tie on
    all three sort keys only arises between the two sexes. *)
Lemma same_name_candidates_differ_in_sex ranks last_year prev_year candidates
    (i j : nat) e1 e2 :
  RankTable_wf ranks ->
  trending_candidates ranks last_year prev_year = Ok candidates ->
  candidates !! i = Some e1 -> candidates !! j = Some e2 -> i <> j ->
  name e1 = name e2 -> sex e1 <> sex e2.
Proof.
  intros [_ Hwf] Hc Hi Hj Hne Hname Hsex.
  apply trending_candidates_Ok in Hc as (males & females & Hm & Hf & ->).
  pose proof (qualifying_names_NoDup last_year prev_year "M" males (Hwf _ _ Hm))
    as HndM.
  pose proof (qualifying_names_NoDup last_year prev_year "F" females (Hwf _ _ Hf))
    as HndF.
  pose proof (Forall_sex_qualifying last_year prev_year "M" males) as HM.
  pose proof (Forall_sex_qualifying last_year prev_year "F" females) as HF.
  rewrite Forall_forall in HM, HF.
  apply lookup_app_Some in Hi as [Hi|[Hlen1 Hi]], Hj as [Hj|[Hlen2 Hj]].
  - apply Hne. apply (NoDup_lookup _ i j (name e1) HndM);
      rewrite list_lookup_fmap; [by rewrite Hi | by rewrite Hj, Hname].
  - apply list_elem_of_lookup_2 in Hi, Hj. apply HM in Hi. apply HF in Hj.
    congruence.
  - apply list_elem_of_lookup_2 in Hi, Hj. apply HF in Hi. apply HM in Hj.
    congruence.
  - assert (i - length (qualifying last_year prev_year "M" males)
            = j - length (qualifying last_year prev_year "M" males))%nat; [|lia].
    eapply (NoDup_lookup _ _ _ (name e1) HndF);
      rewrite list_lookup_fmap; [by rewrite Hi | by rewrite Hj, Hname].
Qed.

(** ** Further properties of [parse_names] *)

Lemma dict_get_is_Some_keys {K V : Type} `{EqDecision K} (k : K)
    (d : Dict.t K V) :
  is_Some (Dict.get k d) <-> k ∈ Dict.keys d.
Proof.
  destruct (Dict.get k d) eqn:Hg.
  - split; [intros _|eauto]. destruct (decide (k ∈ Dict.keys d)) as [?|Hn]; [done|].
    apply dict_get_None_keys in Hn. congruence.
  - split; [by intros [? ?]|]. intros Hin. by apply dict_get_None_keys in Hg.
Qed.

Lemma zf_open_listed zf filename :
  filename ∈ namelist zf -> is_Some (Dict.get filename (reverse zf)).
Proof.
  intros Hin. apply dict_get_is_Some_keys. unfold Dict.keys, namelist in *.
  change (map fst (reverse zf)) with (fst <$> reverse zf).
  rewrite fmap_reverse. by apply elem_of_reverse.
Qed.

Section parse_names_errors.
Variable int : string -> option Z.

Lemma parse_rows_malformed year rows years :
  rows_records int year rows = None ->
  for_each (parse_row int year) years rows = Raise ValueError.
Proof.
  revert years. induction rows as [|r rows IH]; intros years; [done|].
  cbn [rows_records for_each].
  destruct (row_record int year r) as [rec|] eqn:Hrow.
  - unfold row_record in Hrow. destruct r as [|n [|s [|count [|]]]]; try done.
    cbn [parse_row]. destruct (int count) as [c|]; [|done]. simpl.
    destruct (rows_records int year rows); [done|]. intros _. by apply IH.
  - intros _. unfold row_record in Hrow.
    destruct r as [|n [|s [|count [|]]]]; try done.
    cbn [parse_row]. by destruct (int count).
Qed.

Lemma parse_member_malformed zf filename years :
  filename ∈ namelist zf -> member_records int zf filename = None ->
  parse_member int zf years filename = Raise ValueError.
Proof.
  intros Hin. unfold member_records, parse_member, zf_open.
  destruct (negb (startswith filename "yob") || negb (endswith filename ".txt"));
    [done|].
  destruct (int (substring 3 4 filename)) as [year|]; [|done]. simpl.
  destruct (zf_open_listed _ _ Hin) as [rows ->]. simpl.
  apply parse_rows_malformed.
Qed.

Lemma parse_members_malformed zf filenames years :
  (forall filename, filename ∈ filenames -> filename ∈ namelist zf) ->
  members_records int zf filenames = None ->
  for_each (parse_member int zf) years filenames = Raise ValueError.
Proof.
  revert years. induction filenames as [|fn fns IH]; intros years Hlisted; [done|].
  cbn [members_records for_each].
  destruct (member_records int zf fn) as [recs|] eqn:H1.
  - rewrite (parse_member_records _ _ _ _ _ H1). simpl.
    destruct (members_records int zf fns); [done|]. intros _.
    apply IH; [|done]. intros fn' Hin. by apply Hlisted, list_elem_of_further.
  - intros _. rewrite parse_member_malformed; [done| |done].
    apply Hlisted, list_elem_of_here.
Qed.

(** X1. [parse_names] raises exactly when some record it reads is
    malformed (a row that has not three fields, a count or a year that
    [int] rejects); the exception is then [ValueError], and it is never
    [KeyError]. *)
Theorem parse_names_raises_iff_malformed zf :
  (parse_names int zf = Raise ValueError <-> archive_records int zf = None)
  /\ parse_names int zf <> Raise KeyError.
Proof.
  unfold parse_names, archive_records.
  destruct (members_records int zf (namelist zf)) as [recs|] eqn:Hrecs.
  - rewrite (parse_members_records _ _ _ _ _ Hrecs). by split.
  - rewrite parse_members_malformed by done. by split.
Qed.

Lemma store_count_no_empty_group years year s n c :
  no_empty_group years -> no_empty_group (store_count years year s n c).
Proof.
  intros Hne year' sd' Hin. unfold store_count in Hin.
  apply dict_elem_set in Hin as [[-> ->]|Hin]; [|by apply (Hne _ _ Hin)].
  set (sex_data := default Dict.empty (Dict.get year years)) in *.
  split.
  { intros Hnil. pose proof (dict_get_set_eq s
      (Dict.set n c (default Dict.empty (Dict.get s sex_data))) sex_data) as Hg.
    by rewrite Hnil in Hg. }
  intros s' names' Hs'. apply dict_elem_set in Hs' as [[-> ->]|Hs'].
  - intros Hnil. pose proof (dict_get_set_eq n c
      (default Dict.empty (Dict.get s sex_data))) as Hg. by rewrite Hnil in Hg.
  - revert Hs'. unfold sex_data.
    destruct (Dict.get year years) as [sd|] eqn:Hy; simpl.
    + apply dict_get_Some_elem in Hy. intros Hs'. by apply (Hne _ _ Hy) in Hs'.
    + intros H. by apply not_elem_of_nil in H.
Qed.

(** X3. A table [parse_names] returns has no empty level: every year
    it holds has a sex, and every sex under a year has a name. A member
    without rows therefore leaves no trace of its year. *)
Theorem parse_names_no_empty_group zf years :
  parse_names int zf = Ok years -> no_empty_group years.
Proof.
  unfold parse_names. apply (for_each_invariant no_empty_group).
  - intros t filename t' Ht. unfold parse_member.
    destruct (negb (startswith filename "yob") || negb (endswith filename ".txt")).
    { by intros [= <-]. }
    destruct (int (substring 3 4 filename)) as [year|]; [|done]. simpl.
    destruct (zf_open zf filename) as [rows|]; [|done]. simpl.
    revert Ht. apply for_each_invariant.
    intros t1 r t2 Ht1. unfold parse_row.
    destruct r as [|n [|s [|count [|]]]]; try done.
    destruct (int count) as [c|]; [|done]. simpl.
    intros [= <-]. by apply store_count_no_empty_group.
  - intros ? ? H. by apply not_elem_of_nil in H.
Qed.
End parse_names_errors.

Example parse_names_malformed :
  parse_names int_digits malformed_archive = Raise ValueError
  /\ archive_records int_digits malformed_archive = None.
Proof. by vm_compute. Qed.

Lemma parse_names_no_empty_group_witness :
  parse_names int_digits mixed_archive
  = Ok [(2022, [("M", [("Alex", 5)]); ("F", [("Emma", 8)])])]
  /\ no_empty_group [(2022, [("M", [("Alex", 5)]); ("F", [("Emma", 8)])])].
Proof.
  assert (parse_names int_digits mixed_archive
          = Ok [(2022, [("M", [("Alex", 5)]); ("F", [("Emma", 8)])])]) as Hrun
    by (by vm_compute).
  split; [exact Hrun|].
  exact (parse_names_no_empty_group int_digits mixed_archive _ Hrun).
Defined.

Lemma dict_get_app {K V : Type} `{EqDecision K} (k : K) (d1 d2 : Dict.t K V) :
  Dict.get k (d1 ++ d2)
  = match Dict.get k d1 with Some v => Some v | None => Dict.get k d2 end.
Proof.
  induction d1 as [|[k' v'] d1 IH]; simpl; [done|].
  by destruct (decide (k = k')).
Qed.

Lemma zf_open_other zf1 zf2 filename rows filename' :
  filename' <> filename ->
  zf_open (zf1 ++ (filename, rows) :: zf2) filename'
  = zf_open (zf1 ++ zf2) filename'.
Proof.
  intros Hne. unfold zf_open. f_equal.
  rewrite !reverse_app, reverse_cons, !dict_get_app; simpl.
  rewrite decide_False by done.
  by destruct (Dict.get filename' (reverse zf2)).
Qed.

Lemma parse_member_skip int zf years filename :
  is_data_member filename = false ->
  parse_member int zf years filename = Ok years.
Proof.
  unfold is_data_member, parse_member. intros Hskip.
  rewrite <- negb_andb, Hskip. done.
Qed.

Lemma parse_member_other int zf1 zf2 filename rows years filename' :
  is_data_member filename = false ->
  parse_member int (zf1 ++ (filename, rows) :: zf2) years filename'
  = parse_member int (zf1 ++ zf2) years filename'.
Proof.
  intros Hskip. destruct (is_data_member filename') eqn:Hdata.
  - unfold parse_member. rewrite zf_open_other; [done|]. congruence.
  - by rewrite !parse_member_skip.
Qed.

(** X2. A member whose name does not start with [yob] or does not end
    with [.txt] has no effect: wherever it stands in the archive and
    whatever its rows hold, the result is that of the archive without
    it. *)
Theorem parse_names_ignores_other_members int zf1 zf2 filename rows :
  is_data_member filename = false ->
  parse_names int (zf1 ++ (filename, rows) :: zf2) = parse_names int (zf1 ++ zf2).
Proof.
  intros Hskip. unfold parse_names, namelist.
  rewrite !map_app, map_cons, !for_each_app. simpl.
  rewrite (for_each_ext _ (parse_member int (zf1 ++ zf2)))
    by (intros; by apply parse_member_other).
  destruct (for_each (parse_member int (zf1 ++ zf2)) Dict.empty (map fst zf1))
    as [t|]; simpl; [|done].
  rewrite parse_member_other, parse_member_skip by done. simpl.
  apply for_each_ext. intros. by apply parse_member_other.
Qed.

Lemma parse_names_ignores_other_members_witness :
  parse_names int_digits
    ([("yob2021.txt", [])]
     ++ ("NationalReadMe.pdf", [["National"; "data"]])
        :: [("yob2022.txt", [["Alex"; "M"; "5"]; ["Emma"; "F"; "8"]])])
  = parse_names int_digits
      ([("yob2021.txt", [])]
       ++ [("yob2022.txt", [["Alex"; "M"; "5"]; ["Emma"; "F"; "8"]])]).
Proof. apply parse_names_ignores_other_members. reflexivity. Defined.

(** ** Further properties of [compute_ranks] *)

Lemma store_rank_KeyError year s ranks e :
  Dict.get s ranks = None -> store_rank year s ranks e = Raise KeyError.
Proof. intros Hs. destruct e as [rank [n c]]. unfold store_rank. by rewrite Hs. Qed.

Lemma for_each_assign_KeyError asg ranks :
  (exists year s e, (year, s, e) ∈ asg /\ Dict.get s ranks = None) ->
  for_each assign ranks asg = Raise KeyError.
Proof.
  revert ranks. induction asg as [|[[year s] [rank [n c]]] asg IH];
    intros ranks (y' & s' & e' & Hin & Hnone).
  - by apply not_elem_of_nil in Hin.
  - cbn [for_each].
    change (assign ranks (year, s, (rank, (n, c))))
      with (store_rank year s ranks (rank, (n, c))).
    destruct (Dict.get s ranks) as [by_name|] eqn:Hs.
    + destruct (store_rank_spec year s ranks rank n c) as (r1 & -> & Hk & _);
        [by rewrite Hs|]. simpl. apply IH.
      apply elem_of_cons in Hin as [[= -> -> ->]|Hin]; [congruence|].
      exists y', s', e'. split; [done|].
      destruct (Dict.get s' r1) eqn:Hr1; [|done].
      assert (is_Some (Dict.get s' ranks)) as [? ?] by (apply Hk; eauto).
      congruence.
    + by rewrite store_rank_KeyError.
Qed.

Lemma assignments_nonempty_group years year s :
  (exists e, (year, s, e) ∈ assignments years) <->
  exists sex_data names,
    (year, sex_data) ∈ years /\ (s, names) ∈ sex_data /\ names <> [].
Proof.
  split.
  - intros [e He]. apply elem_of_assignments in He as (sd & nc & Hy & Hs & He).
    exists sd, nc. split_and!; [done | done |]. intros ->.
    by apply not_elem_of_nil in He.
  - intros (sd & nc & Hy & Hs & Hne).
    destruct (lookup_lt_is_Some_2 (sorted_names nc) 0) as [x Hx].
    { unfold sorted_names. rewrite sorted_length. unfold Dict.items.
      destruct nc; [done | simpl; lia]. }
    exists (1, x). apply elem_of_assignments. exists sd, nc.
    split_and!; [done | done |]. apply elem_of_enumerate. by exists 0%nat.
Qed.

Lemma compute_ranks_unknown_sex_raises years :
  (exists year sex_data s names,
     (year, sex_data) ∈ years /\ (s, names) ∈ sex_data /\ names <> []
     /\ s <> "M" /\ s <> "F") ->
  compute_ranks years = Raise KeyError.
Proof.
  intros (y & sd & s & nc & Hy & Hs & Hne & HM & HF).
  rewrite compute_ranks_assignments. apply for_each_assign_KeyError.
  destruct (proj2 (assignments_nonempty_group years y s)) as [e He];
    [by exists sd, nc|].
  exists y, s, e. split; [done|].
  destruct (Dict.get s initial_ranks) eqn:Hg; [|done].
  assert (s = "M" \/ s = "F") by (apply initial_ranks_keys; eauto). tauto.
Qed.

(** X4. [compute_ranks] raises exactly when some year holds names under
    a sex code other than "M" and "F"; the exception is [KeyError], from
    the lookup [ranks[sex]], and no other exception is raised. *)
Theorem compute_ranks_raises_iff_unknown_sex years :
  (compute_ranks years = Raise KeyError <->
   exists year sex_data s names,
     (year, sex_data) ∈ years /\ (s, names) ∈ sex_data /\ names <> []
     /\ s <> "M" /\ s <> "F")
  /\ compute_ranks years <> Raise ValueError.
Proof.
  rewrite compute_ranks_assignments.
  destruct (decide (Forall (fun a : assignment =>
                              is_Some (Dict.get a.1.2 initial_ranks))
                           (assignments years))) as [Hall|Hex].
  - destruct (for_each_assign_spec (assignments years) initial_ranks)
      as (r & -> & _).
    { intros y s e Hin. rewrite Forall_forall in Hall. apply (Hall _ Hin). }
    split; [|done]. split; [done|].
    intros (y & sd & s & nc & Hy & Hs & Hne & HM & HF).
    destruct (proj2 (assignments_nonempty_group years y s)) as [e He];
      [by exists sd, nc|].
    rewrite Forall_forall in Hall. apply Hall, initial_ranks_keys in He.
    simpl in He. tauto.
  - apply not_Forall_Exists in Hex; [|apply _].
    apply Exists_exists in Hex as ([[y s] e] & Hin & Hnone').
    assert (~ is_Some (Dict.get s initial_ranks)) as Hnone by exact Hnone'.
    clear Hnone'. rewrite for_each_assign_KeyError.
    + split; [|done]. split; [|done]. intros _.
      destruct (proj1 (assignments_nonempty_group years y s)) as (sd & nc & ?);
        [by exists e|].
      exists y, sd, s, nc. rewrite initial_ranks_keys in Hnone.
      split_and!; try tauto; intros ->; apply Hnone; tauto.
    + exists y, s, e. split; [done|].
      destruct (Dict.get s initial_ranks) eqn:Hg; [|done].
      destruct Hnone. eauto.
Qed.

Example compute_ranks_raises_unknown_sex :
  compute_ranks unknown_sex_years = Raise KeyError
  /\ compute_ranks [(2022, [("X", [])])] = Ok initial_ranks.
Proof. by vm_compute. Qed.

Lemma store_rank_RankTable_wf year s ranks e ranks' :
  RankTable_wf ranks -> store_rank year s ranks e = Ok ranks' ->
  RankTable_wf ranks'.
Proof.
  intros [Hkeys Hwf]. destruct e as [rank [n c]]. unfold store_rank.
  destruct (Dict.get s ranks) as [by_name|] eqn:Hs; [|done]. simpl.
  intros [= <-]. split.
  - intros s'. rewrite dict_get_set, <- Hkeys.
    destruct (decide (s = s')) as [<-|?]; [|done]. rewrite Hs. split; eauto.
  - intros s' by_name'. rewrite dict_get_set.
    destruct (decide (s = s')) as [<-|?]; [|apply Hwf].
    intros [= <-]. apply dict_wf_set. by eapply Hwf.
Qed.

Lemma initial_ranks_wf : RankTable_wf initial_ranks.
Proof.
  split; [apply initial_ranks_keys|]. intros s by_name.
  unfold initial_ranks; simpl.
  repeat case_decide; intros [= <-]; apply dict_wf_empty.
Qed.

Lemma compute_ranks_RankTable_wf years ranks :
  compute_ranks years = Ok ranks -> RankTable_wf ranks.
Proof.
  rewrite compute_ranks_assignments.
  apply (for_each_invariant RankTable_wf); [|apply initial_ranks_wf].
  intros r [[year s] e] r' Hr. by apply store_rank_RankTable_wf.
Qed.

Lemma calculate_trending_defined ranks top_n :
  RankTable_wf ranks -> exists trend_list, calculate_trending ranks top_n = Ok trend_list.
Proof.
  intros [Hkeys _].
  destruct (bool_decide (size (all_years ranks) < 2)%nat) eqn:Hsz.
  - exists []. unfold calculate_trending. by rewrite Hsz.
  - destruct (comparison_years _ (two_sizes_two_years _ Hsz))
      as (last & prev & Hl & Hp & _).
    destruct (proj2 (Hkeys "M")) as [males Hm]; [by left|].
    destruct (proj2 (Hkeys "F")) as [females Hf]; [by right|].
    rewrite (calculate_trending_two_years _ _ _ _ Hl Hp).
    rewrite (proj2 (trending_candidates_Ok ranks last prev
                      (qualifying last prev "M" males
                       ++ qualifying last prev "F" females)));
      [|by exists males, females].
    simpl. eauto.
Qed.

(** X5. Every table [compute_ranks] returns has exactly the two sexes
    as its keys and no name twice under a sex, so [calculate_trending]
    raises nothing on it, whatever count is requested. *)
Theorem compute_ranks_then_calculate_trending years ranks :
  compute_ranks years = Ok ranks ->
  RankTable_wf ranks
  /\ forall top_n, exists trend_list,
       calculate_trending ranks top_n = Ok trend_list.
Proof.
  intros Hrun. apply compute_ranks_RankTable_wf in Hrun.
  split; [done|]. intros top_n. by apply calculate_trending_defined.
Qed.

Lemma compute_ranks_then_calculate_trending_witness :
  RankTable_wf scenario_ranks
  /\ forall top_n, exists trend_list,
       calculate_trending scenario_ranks top_n = Ok trend_list.
Proof.
  apply (compute_ranks_then_calculate_trending scenario_years). by vm_compute.
Defined.

Lemma filter_all {A : Type} (P : A -> Prop) `{!forall x, Decision (P x)}
    (l : list A) :
  Forall P l -> filter P l = l.
Proof.
  induction 1 as [|x l Hx Hl IH]; [done|].
  by rewrite filter_cons_True, IH.
Qed.

Lemma filter_none {A : Type} (P : A -> Prop) `{!forall x, Decision (P x)}
    (l : list A) :
  Forall (fun x => ~ P x) l -> filter P l = [].
Proof.
  induction 1 as [|x l Hx Hl IH]; [done|].
  by rewrite filter_cons_False, IH.
Qed.

Section position.
Context {A Key : Type} `{EqDecision Key}.
Context (key : A -> Key) (ltb : Key -> Key -> bool) `{!StrictTotalOrder ltb}.

(** In a sorted list without two elements of one key, the position of an
    element is the number of elements with a smaller key. *)
Lemma sorted_position (l : list A) (i : nat) (x : A) :
  StronglySorted (key_le key ltb) l -> NoDup (key <$> l) -> l !! i = Some x ->
  length (filter (fun y => ltb (key y) (key x) = true) l) = i.
Proof.
  intros Hs Hnd Hi.
  assert (forall j y, l !! j = Some y -> j <> i -> key y <> key x) as Hdiff.
  { intros j y Hj Hne Hk. apply Hne.
    apply (NoDup_lookup _ j i (key x) Hnd); rewrite list_lookup_fmap;
      [by rewrite Hj; simpl; rewrite Hk | by rewrite Hi]. }
  rewrite <- (take_drop_middle l i x Hi) at 1.
  rewrite filter_app, filter_cons_False by (by rewrite ltb_irrefl).
  rewrite filter_all, filter_none.
  - rewrite app_nil_r, length_take. apply lookup_lt_Some in Hi. lia.
  - apply Forall_forall. intros y Hy. apply list_elem_of_lookup in Hy as [j Hj].
    rewrite lookup_drop in Hj.
    pose proof (StronglySorted_lookup_le key ltb l i (S i + j) x y Hs Hi Hj)
      as Hle. unfold key_le in Hle. rewrite Hle by lia. done.
  - apply Forall_forall. intros y Hy. apply list_elem_of_lookup in Hy as [j Hj].
    apply lookup_take_Some in Hj as [Hj Hlt].
    pose proof (StronglySorted_lookup_le key ltb l j i y x Hs Hj Hi) as Hle.
    unfold key_le in Hle.
    destruct (ltb (key y) (key x)) eqn:Hyx; [done|]. exfalso.
    apply (Hdiff j y Hj); [lia|].
    apply (ltb_connex (ltb:=ltb)); [done | apply Hle; lia].
Qed.
End position.

Lemma outranks_key a b : outranks a b = key2_ltb (count_key a) (count_key b).
Proof.
  unfold outranks, key2_ltb, count_key, str_ltb; simpl.
  destruct (Z.ltb_spec b.2 a.2), (Z.ltb_spec (- a.2) (- b.2)),
    (Z.eqb_spec a.2 b.2), (Z.eqb_spec (- a.2) (- b.2)); try lia; done.
Qed.

Lemma count_key_inj a b : count_key a = count_key b -> a = b.
Proof.
  destruct a as [n c], b as [n' c']. unfold count_key; simpl.
  intros [= Hc ->]. f_equal. lia.
Qed.

Lemma sorted_names_keys_NoDup names :
  Dict.wf names -> NoDup (count_key <$> sorted_names names).
Proof.
  intros Hwf. rewrite sorted_names_Permutation.
  unfold Dict.wf, Dict.keys in Hwf. apply NoDup_fmap_1 in Hwf.
  apply NoDup_fmap_2_strong; [|done].
  intros a b _ _. apply count_key_inj.
Qed.

(** X6. The rank of a name is one more than the number of names of its
    year and sex that have a larger count, or the same count and a
    smaller name. *)
Theorem rank_counts_better_names years year s names n c :
  YearCountTable_wf years -> two_sexes years ->
  group years year s = Some names -> Dict.get n names = Some c ->
  exists ranks, compute_ranks years = Ok ranks
    /\ rank_of ranks s n year
       = Some (1 + Z.of_nat (length (filter (fun x => outranks x (n, c) = true)
                                            names))).
Proof.
  intros Hwf Hsex Hg Hc. pose proof (group_wf _ _ _ _ Hwf Hg) as Hnames.
  destruct (compute_ranks_spec years Hwf Hsex) as (ranks & Hrun & _ & Hrank).
  exists ranks. split; [done|].
  apply sorted_names_elem in Hc as [i Hi]; [|done].
  apply Hrank. exists names, c, i. split_and!; [done | done |].
  do 2 f_equal.
  rewrite <- (sorted_position count_key key2_ltb (sorted_names names) i (n, c));
    [|apply sorted_StronglySorted, _ | by apply sorted_names_keys_NoDup | done].
  rewrite <- (sorted_names_Permutation names) at 1.
  f_equal. apply list_filter_iff. intros x. by rewrite outranks_key.
Qed.

Lemma rank_counts_better_names_witness :
  exists ranks, compute_ranks scenario_years = Ok ranks
    /\ rank_of ranks "M" "Sam" 2021
       = Some (1 + Z.of_nat (length (filter (fun x => outranks x ("Sam", 100) = true)
                                            [("Alex", 100); ("Sam", 100)]))).
Proof.
  apply (rank_counts_better_names scenario_years 2021 "M");
    [apply scenario_years_wf | apply scenario_years_two_sexes
    | reflexivity | reflexivity].
Defined.

Lemma sorted_names_order_independent names1 names2 :
  names1 ≡ₚ names2 -> sorted_names names1 = sorted_names names2.
Proof.
  intros Hperm.
  apply (StronglySorted_unique_strong (key_le count_key key2_ltb)).
  - intros x1 x2 _ _ H12 H21. apply count_key_inj.
    by apply (key_le_antisym count_key key2_ltb).
  - apply sorted_StronglySorted, _.
  - apply sorted_StronglySorted, _.
  - by rewrite !sorted_names_Permutation.
Qed.

Lemma reordered_years_wf : YearCountTable_wf reordered_years.
Proof. apply YearCountTable_wf_Forall, (bool_decide_unpack _). by vm_compute. Qed.

Lemma reordered_years_two_sexes : two_sexes reordered_years.
Proof. apply two_sexes_Forall, (bool_decide_unpack _). by vm_compute. Qed.

(** X7. The ranks of a year and sex depend on the names and counts of
    that year and sex alone: two tables that hold the same names and
    counts there, in whatever order and beside whatever other years and
    sexes, give every name the same rank. *)
Theorem ranks_depend_on_group_only years1 years2 year s names1 names2 :
  YearCountTable_wf years1 -> two_sexes years1 ->
  YearCountTable_wf years2 -> two_sexes years2 ->
  group years1 year s = Some names1 -> group years2 year s = Some names2 ->
  names1 ≡ₚ names2 ->
  exists ranks1 ranks2,
    compute_ranks years1 = Ok ranks1 /\ compute_ranks years2 = Ok ranks2
    /\ forall n, rank_of ranks1 s n year = rank_of ranks2 s n year.
Proof.
  intros Hwf1 Hsex1 Hwf2 Hsex2 Hg1 Hg2 Hperm.
  destruct (compute_ranks_spec years1 Hwf1 Hsex1) as (r1 & Hrun1 & _ & Hrank1).
  destruct (compute_ranks_spec years2 Hwf2 Hsex2) as (r2 & Hrun2 & _ & Hrank2).
  exists r1, r2. split_and!; [done | done |]. intros n.
  apply option_eq. intros k. rewrite Hrank1, Hrank2.
  pose proof (sorted_names_order_independent _ _ Hperm) as Heq.
  split; intros (nc & c & i & Hg & Hi & ->).
  - rewrite Hg1 in Hg. injection Hg as <-. exists names2, c, i.
    by rewrite <- Heq.
  - rewrite Hg2 in Hg. injection Hg as <-. exists names1, c, i.
    by rewrite Heq.
Qed.

Lemma ranks_depend_on_group_only_witness :
  exists ranks1 ranks2,
    compute_ranks scenario_years = Ok ranks1
    /\ compute_ranks reordered_years = Ok ranks2
    /\ forall n, rank_of ranks1 "M" n 2021 = rank_of ranks2 "M" n 2021.
Proof.
  apply (ranks_depend_on_group_only scenario_years reordered_years 2021 "M"
           [("Alex", 100); ("Sam", 100)] [("Sam", 100); ("Alex", 100)]);
    [apply scenario_years_wf | apply scenario_years_two_sexes
    | apply reordered_years_wf | apply reordered_years_two_sexes
    | reflexivity | reflexivity | apply Permutation_swap].
Defined.

(** ** Further properties of [calculate_trending] *)

(** X8. With two distinct years and a request of [top_n >= 0] entries,
    the list returned has [top_n] entries, or all candidates when there
    are fewer. *)
Theorem calculate_trending_length ranks top_n last_year prev_year candidates :
  is_last_year ranks last_year -> is_prev_year ranks last_year prev_year ->
  trending_candidates ranks last_year prev_year = Ok candidates ->
  0 <= top_n ->
  exists trend_list, calculate_trending ranks top_n = Ok trend_list
    /\ Z.of_nat (length trend_list) = Z.min top_n (Z.of_nat (length candidates)).
Proof.
  intros Hl Hp Hc Hn.
  rewrite (calculate_trending_two_years _ _ _ _ Hl Hp), Hc. simpl.
  eexists. split; [done|].
  rewrite slice_to_nonneg, length_take, sorted_length by done. lia.
Qed.

Lemma calculate_trending_length_witness :
  exists trend_list, calculate_trending both_sexes_ranks 3 = Ok trend_list
    /\ Z.of_nat (length trend_list)
       = Z.min 3 (Z.of_nat (length [mkTrend "Riley" "M" 1 2 1;
                                    mkTrend "Noah" "M" 2 1 (-1);
                                    mkTrend "Riley" "F" 1 2 1;
                                    mkTrend "Emma" "F" 2 1 (-1)])).
Proof.
  assert (exists y1 y2, year_occurs both_sexes_ranks y1
                        /\ year_occurs both_sexes_ranks y2 /\ y1 <> y2) as Hy.
  { apply two_sizes_two_years. by vm_compute. }
  destruct (comparison_years _ Hy) as (l & p & Hl & Hp & _ & Hmax & Hmax').
  vm_compute in Hmax. injection Hmax as <-.
  vm_compute in Hmax'. injection Hmax' as <-.
  apply (calculate_trending_length both_sexes_ranks 3 2022 2021);
    [exact Hl | exact Hp | reflexivity | lia].
Defined.

(** X9. Asking for fewer entries returns a prefix of what a larger
    request returns: for [0 <= n <= m] the answer to [n] is the first
    [n] entries of the answer to [m]. *)
Theorem calculate_trending_prefix ranks n m trend_list :
  0 <= n <= m -> calculate_trending ranks m = Ok trend_list ->
  calculate_trending ranks n = Ok (take (Z.to_nat n) trend_list).
Proof.
  intros Hnm. unfold calculate_trending.
  destruct (bool_decide (size (all_years ranks) < 2)%nat).
  { intros [= <-]. by rewrite take_nil. }
  destruct (py_max (elements (all_years ranks))) as [last|]; [|done]. simpl.
  destruct (py_max (filter _ _)) as [prev|]; [|done]. simpl.
  destruct (trending_candidates ranks last prev) as [cands|]; [|done]. simpl.
  intros [= <-]. f_equal. rewrite !slice_to_nonneg by lia.
  rewrite take_take. f_equal. lia.
Qed.

Lemma calculate_trending_prefix_witness :
  calculate_trending both_sexes_ranks 1
  = Ok (take (Z.to_nat 1)
          [mkTrend "Riley" "M" 1 2 1; mkTrend "Riley" "F" 1 2 1;
           mkTrend "Emma" "F" 2 1 (-1)]).
Proof.
  apply (calculate_trending_prefix both_sexes_ranks 1 3); [lia | by vm_compute].
Defined.

(** X10. [calculate_trending] raises exactly when the table has two
    distinct years and lacks the key "M" or the key "F"; the exception is
    [KeyError], and [max] never raises [ValueError]. *)
Theorem calculate_trending_raises_iff_sex_missing ranks top_n :
  (calculate_trending ranks top_n = Raise KeyError <->
   (exists y1 y2, year_occurs ranks y1 /\ year_occurs ranks y2 /\ y1 <> y2)
   /\ (Dict.get "M" ranks = None \/ Dict.get "F" ranks = None))
  /\ calculate_trending ranks top_n <> Raise ValueError.
Proof.
  destruct (bool_decide (size (all_years ranks) < 2)%nat) eqn:Hsz.
  - unfold calculate_trending. rewrite Hsz. split; [|done]. split; [done|].
    intros [Hy _]. destruct (comparison_years _ Hy) as (? & ? & _ & _ & Hsz' & _).
    congruence.
  - pose proof (two_sizes_two_years _ Hsz) as Hy.
    destruct (comparison_years _ Hy) as (last & prev & Hl & Hp & _).
    rewrite (calculate_trending_two_years _ _ _ _ Hl Hp).
    unfold trending_candidates, add_sex; simpl.
    destruct (Dict.get "M" ranks) as [males|]; simpl.
    + destruct (Dict.get "F" ranks) as [females|]; simpl.
      * split; [|done]. split; [done|]. by intros [_ [?|?]].
      * split; [|done]. split; [|done]. intros _. split; [done | by right].
    + split; [|done]. split; [|done]. intros _. split; [done | by left].
Qed.

Example calculate_trending_males_only :
  calculate_trending males_only_ranks 10 = Raise KeyError.
Proof. by vm_compute. Qed.

(** The entries returned stand in the sorted candidate list. *)
Lemma calculate_trending_Ok_inv ranks top_n trend_list :
  calculate_trending ranks top_n = Ok trend_list ->
  trend_list = []
  \/ exists last_year prev_year males females m,
       is_last_year ranks last_year /\ is_prev_year ranks last_year prev_year
       /\ Dict.get "M" ranks = Some males /\ Dict.get "F" ranks = Some females
       /\ trend_list
          = take m (sorted trend_key key3_ltb
                      (qualifying last_year prev_year "M" males
                       ++ qualifying last_year prev_year "F" females)).
Proof.
  intros Hrun.
  destruct (bool_decide (size (all_years ranks) < 2)%nat) eqn:Hsz.
  - unfold calculate_trending in Hrun. rewrite Hsz in Hrun.
    injection Hrun as <-. by left.
  - destruct (comparison_years _ (two_sizes_two_years _ Hsz))
      as (last & prev & Hl & Hp & _).
    rewrite (calculate_trending_two_years _ _ _ _ Hl Hp) in Hrun.
    destruct (trending_candidates ranks last prev) as [cands|] eqn:Hc; [|done].
    simpl in Hrun. injection Hrun as <-.
    apply trending_candidates_Ok in Hc as (males & females & Hm & Hf & ->).
    destruct (slice_to_take top_n
                (sorted trend_key key3_ltb
                   (qualifying last prev "M" males
                    ++ qualifying last prev "F" females))) as [m Hm'].
    right. exists last, prev, males, females, m. by rewrite Hm'.
Qed.

(** X11. The entries returned are the best candidates: with a request
    of [top_n >= 0], every candidate left out sorts after every entry
    returned, so its improvement is not larger. *)
Theorem calculate_trending_keeps_best ranks top_n last_year prev_year
    candidates trend_list e e' :
  is_last_year ranks last_year -> is_prev_year ranks last_year prev_year ->
  trending_candidates ranks last_year prev_year = Ok candidates ->
  0 <= top_n -> calculate_trending ranks top_n = Ok trend_list ->
  e ∈ trend_list -> e' ∈ candidates -> e' ∉ trend_list ->
  trend_before e e' /\ improvement e' <= improvement e.
Proof.
  intros Hl Hp Hc Hn Hrun He He' Hout.
  rewrite (calculate_trending_two_years _ _ _ _ Hl Hp), Hc in Hrun.
  simpl in Hrun. injection Hrun as <-. rewrite slice_to_nonneg in He, Hout by done.
  apply elem_of_take in He as (i & Hi & Hlt).
  apply (elem_of_sorted trend_key key3_ltb) in He'.
  apply list_elem_of_lookup in He' as [j Hj].
  assert (i <= j)%nat as Hij.
  { destruct (decide (i <= j)%nat) as [?|Hgt]; [done|]. exfalso. apply Hout.
    apply elem_of_take. exists j. split; [done | lia]. }
  assert (trend_before e e') as Hbefore.
  { apply key_le_trend_before.
    by eapply (StronglySorted_lookup_le trend_key key3_ltb);
      [apply sorted_StronglySorted, _ | exact Hi | exact Hj |]. }
  split; [done|]. unfold trend_before in Hbefore. lia.
Qed.

Lemma calculate_trending_keeps_best_witness :
  trend_before (mkTrend "Riley" "M" 1 2 1) (mkTrend "Emma" "F" 2 1 (-1))
  /\ improvement (mkTrend "Emma" "F" 2 1 (-1))
     <= improvement (mkTrend "Riley" "M" 1 2 1).
Proof.
  assert (exists y1 y2, year_occurs both_sexes_ranks y1
                        /\ year_occurs both_sexes_ranks y2 /\ y1 <> y2) as Hy.
  { apply two_sizes_two_years. by vm_compute. }
  destruct (comparison_years _ Hy) as (l & p & Hl & Hp & _ & Hmax & Hmax').
  vm_compute in Hmax. injection Hmax as <-.
  vm_compute in Hmax'. injection Hmax' as <-.
  apply (calculate_trending_keeps_best both_sexes_ranks 1 2022 2021
           [mkTrend "Riley" "M" 1 2 1; mkTrend "Noah" "M" 2 1 (-1);
            mkTrend "Riley" "F" 1 2 1; mkTrend "Emma" "F" 2 1 (-1)]
           [mkTrend "Riley" "M" 1 2 1]);
    [exact Hl | exact Hp | reflexivity | lia | by vm_compute
    | apply list_elem_of_here
    | do 3 apply list_elem_of_further; apply list_elem_of_here |].
  intros Hin. apply list_elem_of_singleton in Hin. discriminate Hin.
Defined.

(** ** The pages [build_site] writes *)

Lemma string_length_app (a b : string) :
  String.length (String.append a b) = (String.length a + String.length b)%nat.
Proof. induction a as [|c a IH]; simpl; [done | by rewrite IH]. Qed.

Lemma string_app_inj_len (a b x y : string) :
  String.length x = String.length y ->
  String.append a x = String.append b y -> a = b /\ x = y.
Proof.
  intros Hlen. revert b. induction a as [|c a IH]; intros [|d b].
  - change (x = y -> "" = "" /\ x = y). done.
  - change (x = String d (String.append b y) -> "" = String d b /\ x = y).
    intros Heq. rewrite Heq in Hlen.
    change (S (String.length (String.append b y)) = String.length y) in Hlen.
    rewrite string_length_app in Hlen. lia.
  - change (String c (String.append a x) = y -> String c a = "" /\ x = y).
    intros Heq. rewrite <- Heq in Hlen.
    change (String.length x = S (String.length (String.append a x))) in Hlen.
    rewrite string_length_app in Hlen. lia.
  - change (String c (String.append a x) = String d (String.append b y) ->
            String c a = String d b /\ x = y).
    intros [= -> Heq]. destruct (IH _ Heq) as [-> ->]. done.
Qed.

Lemma page_filename_inj e1 e2 :
  (sex e1 = "M" \/ sex e1 = "F") -> (sex e2 = "M" \/ sex e2 = "F") ->
  page_filename e1 = page_filename e2 ->
  name e1 = name e2 /\ sex e1 = sex e2.
Proof.
  unfold page_filename. intros [S1|S1] [S2|S2] Heq; rewrite S1, S2 in Heq |- *;
    apply string_app_inj_len in Heq as [? Hsuf]; try done;
    discriminate Hsuf.
Qed.

Lemma candidates_pairs_NoDup last_year prev_year males females :
  Dict.wf males -> Dict.wf females ->
  NoDup ((fun e => (name e, sex e))
           <$> (qualifying last_year prev_year "M" males
                ++ qualifying last_year prev_year "F" females)).
Proof.
  intros Hm Hf. rewrite fmap_app. apply NoDup_app. split_and!.
  - apply (NoDup_fmap_1 fst). rewrite <- list_fmap_compose.
    by apply qualifying_names_NoDup.
  - intros [n s] H1 H2.
    apply list_elem_of_fmap in H1 as (e1 & [= -> ->] & H1).
    apply list_elem_of_fmap in H2 as (e2 & [= _ Hs] & H2).
    apply elem_of_qualifying in H1 as [H1 _], H2 as [H2 _]. congruence.
  - apply (NoDup_fmap_1 fst). rewrite <- list_fmap_compose.
    by apply qualifying_names_NoDup.
Qed.

Lemma both_sexes_ranks_wf : RankTable_wf both_sexes_ranks.
Proof.
  split.
  - intros s. unfold both_sexes_ranks; simpl.
    repeat case_decide; subst; split; intros Hs; eauto;
      solve [by destruct Hs as [? [=]] | by destruct Hs].
  - intros s by_name. unfold both_sexes_ranks; simpl.
    repeat case_decide; intros [= <-];
      apply (bool_decide_unpack _); by vm_compute.
Qed.

(** X12. A (name, sex) pair occurs at most once in the list
    [calculate_trending] returns, and the file names
    [f"{name}-{sex}.html"] that [build_site] derives from its entries
    are pairwise distinct: no page overwrites another. *)
Theorem trending_pages_distinct ranks top_n trend_list :
  RankTable_wf ranks -> calculate_trending ranks top_n = Ok trend_list ->
  NoDup ((fun e => (name e, sex e)) <$> trend_list)
  /\ NoDup (page_filename <$> trend_list).
Proof.
  intros [_ Hwf] Hrun.
  apply calculate_trending_Ok_inv in Hrun
    as [->|(last & prev & males & females & m & _ & _ & Hm & Hf & ->)].
  { split; constructor. }
  set (cands := qualifying last prev "M" males ++ qualifying last prev "F" females).
  assert (NoDup ((fun e => (name e, sex e))
                   <$> take m (sorted trend_key key3_ltb cands))) as Hnd.
  { rewrite fmap_take. eapply sublist_NoDup; [|apply sublist_take].
    rewrite (sorted_Permutation trend_key key3_ltb cands).
    apply candidates_pairs_NoDup; by eapply Hwf. }
  split; [done|].
  apply NoDup_fmap_2_strong; [|by apply NoDup_fmap_1 in Hnd].
  assert (forall e, e ∈ take m (sorted trend_key key3_ltb cands) ->
                    sex e = "M" \/ sex e = "F") as Hsex.
  { intros e He. apply elem_of_take in He as (i & Hi & _).
    apply list_elem_of_lookup_2 in Hi.
    rewrite (elem_of_sorted trend_key key3_ltb) in Hi.
    unfold cands in Hi. apply elem_of_app in Hi as [Hi|Hi];
      apply elem_of_qualifying in Hi as [? _]; eauto. }
  intros e1 e2 H1 H2 Heq.
  destruct (page_filename_inj e1 e2 (Hsex _ H1) (Hsex _ H2) Heq) as [Hn Hs].
  apply list_elem_of_lookup in H1 as [i Hi], H2 as [j Hj].
  assert (i = j) as ->; [|congruence].
  apply (NoDup_lookup _ i j (name e1, sex e1) Hnd); rewrite list_lookup_fmap.
  - by rewrite Hi.
  - rewrite Hj. simpl. by rewrite Hn, Hs.
Qed.

Lemma trending_pages_distinct_witness :
  NoDup ((fun e => (name e, sex e))
           <$> [mkTrend "Riley" "M" 1 2 1; mkTrend "Riley" "F" 1 2 1;
                mkTrend "Emma" "F" 2 1 (-1)])
  /\ NoDup (page_filename
              <$> [mkTrend "Riley" "M" 1 2 1; mkTrend "Riley" "F" 1 2 1;
                   mkTrend "Emma" "F" 2 1 (-1)]).
Proof.
  apply (trending_pages_distinct both_sexes_ranks 3);
    [apply both_sexes_ranks_wf | by vm_compute].
Defined.

(** X13. For every entry of the returned list the lookup
    [ranks[sex][name]] of [build_site] finds a stored mapping (the
    [defaultdict] creates nothing), and this mapping holds the entry's
    two ranks under two different years. *)
Theorem trending_entry_has_page_data ranks top_n trend_list e :
  RankTable_wf ranks -> calculate_trending ranks top_n = Ok trend_list ->
  e ∈ trend_list ->
  exists by_name year_ranks last_year prev_year,
    Dict.get (sex e) ranks = Some by_name
    /\ Dict.get (name e) by_name = Some year_ranks
    /\ page_year_ranks ranks e = Ok year_ranks
    /\ prev_year < last_year
    /\ Dict.get last_year year_ranks = Some (current_rank e)
    /\ Dict.get prev_year year_ranks = Some (prev_rank e).
Proof.
  intros [_ Hwf] Hrun He.
  apply calculate_trending_Ok_inv in Hrun
    as [->|(last & prev & males & females & m & _ & Hp & Hm & Hf & ->)].
  { by apply not_elem_of_nil in He. }
  apply elem_of_take in He as (i & Hi & _).
  apply list_elem_of_lookup_2 in Hi.
  rewrite (elem_of_sorted trend_key key3_ltb) in Hi.
  destruct Hp as (_ & Hlt & _).
  apply elem_of_app in Hi as [Hi|Hi];
    apply elem_of_qualifying in Hi as (Hs & yr & Hin & Hc & Hp' & _).
  - exists males, yr, last, prev. rewrite Hs.
    pose proof (dict_elem_get _ _ _ (Hwf _ _ Hm) Hin) as Hn.
    split_and!; try done. unfold page_year_ranks. rewrite Hs, Hm. simpl.
    by rewrite Hn.
  - exists females, yr, last, prev. rewrite Hs.
    pose proof (dict_elem_get _ _ _ (Hwf _ _ Hf) Hin) as Hn.
    split_and!; try done. unfold page_year_ranks. rewrite Hs, Hf. simpl.
    by rewrite Hn.
Qed.

Lemma trending_entry_has_page_data_witness :
  exists by_name year_ranks last_year prev_year,
    Dict.get "M" scenario_ranks = Some by_name
    /\ Dict.get "Sam" by_name = Some year_ranks
    /\ page_year_ranks scenario_ranks (mkTrend "Sam" "M" 1 2 1) = Ok year_ranks
    /\ prev_year < last_year
    /\ Dict.get last_year year_ranks = Some 1
    /\ Dict.get prev_year year_ranks = Some 2.
Proof.
  apply (trending_entry_has_page_data scenario_ranks 10
           [mkTrend "Sam" "M" 1 2 1; mkTrend "Alex" "M" 2 1 (-1)]
           (mkTrend "Sam" "M" 1 2 1));
    [apply scenario_ranks_wf | by vm_compute | apply list_elem_of_here].
Defined.

(** ** The computation of [build_site] as a whole *)

Lemma foldl_store_record_no_empty_group recs years :
  no_empty_group years -> no_empty_group (foldl store_record years recs).
Proof.
  revert years. induction recs as [|[[[y s] n] c] recs IH]; intros years Hne;
    [done|].
  cbn [foldl]. apply IH. by apply store_count_no_empty_group.
Qed.

Lemma last_seen_Some_elem year s n recs c :
  last_seen year s n recs = Some c -> (year, s, n, c) ∈ recs.
Proof.
  induction recs as [|[[[y' s'] n'] c'] recs IH]; simpl; [done|].
  destruct (last_seen year s n recs) as [c0|].
  - intros [= <-]. by apply list_elem_of_further, IH.
  - case_decide as Hd; [|done]. destruct Hd as (-> & -> & ->).
    intros [= <-]. apply list_elem_of_here.
Qed.

Lemma last_seen_elem_Some year s n c recs :
  (year, s, n, c) ∈ recs -> is_Some (last_seen year s n recs).
Proof.
  induction recs as [|[[[y' s'] n'] c'] recs IH]; simpl.
  - intros H. by apply not_elem_of_nil in H.
  - intros Hin. apply elem_of_cons in Hin as [Heq|Hin].
    + injection Heq as <- <- <- <-.
      destruct (last_seen year s n recs); [eauto|].
      rewrite decide_True by done. eauto.
    + destruct (IH Hin) as [c0 ->]. eauto.
Qed.

Lemma count_of_Some_group years year s n c :
  count_of years year s n = Some c ->
  exists sex_data names,
    (year, sex_data) ∈ years /\ (s, names) ∈ sex_data /\ (n, c) ∈ names.
Proof.
  unfold count_of.
  destruct (Dict.get year years) as [sd|] eqn:Hy; [|done]. simpl.
  destruct (Dict.get s sd) as [names|] eqn:Hs; [|done]. simpl.
  intros Hn. exists sd, names. split_and!; by apply dict_get_Some_elem.
Qed.

Lemma calculate_trending_length_le ranks top_n trend_list :
  0 <= top_n -> calculate_trending ranks top_n = Ok trend_list ->
  Z.of_nat (length trend_list) <= top_n.
Proof.
  intros Hn. unfold calculate_trending.
  destruct (bool_decide (size (all_years ranks) < 2)%nat).
  { intros [= <-]. simpl. lia. }
  destruct (py_max (elements (all_years ranks))) as [last|]; [|done]. simpl.
  destruct (py_max (filter _ _)) as [prev|]; [|done]. simpl.
  destruct (trending_candidates ranks last prev) as [cands|]; [|done]. simpl.
  intros [= <-]. rewrite slice_to_nonneg, length_take by done. lia.
Qed.

(** X14. The computation of [build_site], from the archive to the
    trending list, raises nothing exactly when every record of the
    archive is well formed and carries the sex code "M" or "F"; the
    list it then hands to the renderer has at most 100 entries. *)
Theorem build_site_data_succeeds_iff int zf :
  ((exists ranks trending, build_site_data int zf = Ok (ranks, trending)) <->
   exists recs, archive_records int zf = Some recs
     /\ forall year s n c, (year, s, n, c) ∈ recs -> s = "M" \/ s = "F")
  /\ forall ranks trending,
       build_site_data int zf = Ok (ranks, trending) ->
       (length trending <= 100)%nat.
Proof.
  unfold build_site_data. split; [split|].
  - intros (ranks & trending & Hrun).
    destruct (parse_names int zf) as [years|] eqn:Hparse; [|done].
    simpl in Hrun.
    destruct (compute_ranks years) as [r|] eqn:Hranks; [|done].
    destruct (parse_names_Ok_records _ _ _ Hparse) as [recs Hrecs].
    exists recs. split; [done|]. intros year s n c Hin.
    pose proof (parse_members_records int zf _ _ Dict.empty Hrecs) as Hparse'.
    unfold parse_names in Hparse. rewrite Hparse in Hparse'.
    injection Hparse' as ->.
    destruct (last_seen_elem_Some _ _ _ _ _ Hin) as [c' Hc'].
    assert (count_of (foldl store_record Dict.empty recs) year s n = Some c')
      as Hcount by (by rewrite count_of_store_all, Hc').
    apply count_of_Some_group in Hcount as (sd & names & Hy & Hs & Hn).
    destruct (decide (s = "M")) as [?|HM]; [by left|].
    destruct (decide (s = "F")) as [?|HF]; [by right|]. exfalso.
    rewrite compute_ranks_unknown_sex_raises in Hranks; [done|].
    exists year, sd, s, names. split_and!; try done.
    intros ->. by apply not_elem_of_nil in Hn.
  - intros (recs & Hrecs & Hsex).
    pose proof (parse_members_records int zf _ _ Dict.empty Hrecs) as Hparse.
    fold (parse_names int zf) in Hparse. rewrite Hparse. simpl.
    pose proof (parse_names_wf _ _ _ Hparse) as Hwf.
    assert (two_sexes (foldl store_record Dict.empty recs)) as Htwo.
    { intros year sd s names Hy Hs.
      assert (no_empty_group (foldl store_record Dict.empty recs)) as Hne.
      { apply foldl_store_record_no_empty_group.
        intros ? ? H. by apply not_elem_of_nil in H. }
      destruct names as [|[n c] names]; [by apply (Hne _ _ Hy) in Hs|].
      assert (count_of (foldl store_record Dict.empty recs) year s n = Some c)
        as Hcount.
      { unfold count_of. destruct Hwf as [Hw Hin].
        rewrite (dict_elem_get _ _ _ Hw Hy); simpl.
        destruct (Hin _ _ Hy) as [Hsd Hnames].
        rewrite (dict_elem_get _ _ _ Hsd Hs); simpl.
        by rewrite decide_True. }
      rewrite count_of_store_all in Hcount.
      destruct (last_seen year s n recs) as [c'|] eqn:Hlast; [|done].
      apply last_seen_Some_elem in Hlast. by eapply Hsex. }
    destruct (compute_ranks_spec _ Hwf Htwo) as (ranks & Hranks & Hkeys & _).
    rewrite Hranks. simpl.
    destruct (calculate_trending_defined ranks 100) as [tl Htl].
    { by apply (compute_ranks_RankTable_wf _ _ Hranks). }
    rewrite Htl. simpl. eauto.
  - intros ranks trending Hrun.
    destruct (parse_names int zf) as [years|]; [|done]. simpl in Hrun.
    destruct (compute_ranks years) as [r|]; [|done]. simpl in Hrun.
    destruct (calculate_trending r 100) as [tl|] eqn:Htl; [|done].
    simpl in Hrun. injection Hrun as <- <-.
    apply calculate_trending_length_le in Htl; lia.
Qed.

Example build_site_data_mixed_archive :
  build_site_data int_digits mixed_archive
  = Ok ([("M", [("Alex", [(2022, 1)])]); ("F", [("Emma", [(2022, 1)])])], [])
  /\ build_site_data int_digits unknown_sex_archive = Raise KeyError
  /\ build_site_data int_digits malformed_archive = Raise ValueError.
Proof. by vm_compute. Qed.

(** ** The rows of a name's page *)

Example page_rows_html_scenario :
  page_rows_html [(2022, 1); (2021, 2)]
  = Ok (String.append "<tr><td>2021</td><td>2</td></tr>"
          (String "010" "<tr><td>2022</td><td>1</td></tr>")).
Proof. by vm_compute. Qed.

Lemma page_rows_spec year_ranks years rows0 :
  (forall y, y ∈ years -> is_Some (Dict.get y year_ranks)) ->
  exists rows,
    for_each (fun rows year => row ← page_row year_ranks year; Ok (rows ++ [row]))
             rows0 years = Ok (rows0 ++ rows)
    /\ Forall2 (fun y row => page_row year_ranks y = Ok row) years rows.
Proof.
  revert rows0. induction years as [|y years IH]; intros rows0 Hkeys.
  - exists []. by rewrite app_nil_r.
  - destruct (Hkeys y) as [rank Hrank]; [apply list_elem_of_here|].
    assert (exists row, page_row year_ranks y = Ok row) as [row Hrow]
      by (unfold page_row; rewrite Hrank; simpl; eauto).
    cbn [for_each]. cbn beta. rewrite Hrow. simpl.
    destruct (IH (rows0 ++ [row])) as (rows & Hrun & Hall).
    { intros y' Hy'. by apply Hkeys, list_elem_of_further. }
    exists (row :: rows). rewrite Hrun, <- app_assoc. split; [done|].
    by constructor.
Qed.

Lemma StronglySorted_le_NoDup_lt (l : list Z) :
  StronglySorted (key_le id Z.ltb) l -> NoDup l -> StronglySorted Z.lt l.
Proof.
  induction 1 as [|y l Hl IH Hy]; [constructor|].
  rewrite NoDup_cons. intros [Hnin Hnd]. constructor; [by apply IH|].
  rewrite Forall_forall in Hy |- *. intros z Hz.
  pose proof (Hy z Hz) as Hle. unfold key_le, id in Hle.
  apply Z.ltb_ge in Hle. assert (z <> y) by (by intros ->). lia.
Qed.

(** X15. The rows of a name's page come in strictly ascending order of
    the year, one row for each year of the name's mapping, and building
    them raises nothing: the lookup [year_ranks[year]] always finds its
    year. *)
Theorem page_rows_ascending year_ranks :
  Dict.wf year_ranks ->
  StronglySorted Z.lt (page_years year_ranks)
  /\ page_years year_ranks ≡ₚ Dict.keys year_ranks
  /\ exists rows, page_rows year_ranks = Ok rows
       /\ Forall2 (fun y row => page_row year_ranks y = Ok row)
                  (page_years year_ranks) rows.
Proof.
  intros Hwf. unfold page_years. split_and!.
  - apply StronglySorted_le_NoDup_lt; [apply sorted_StronglySorted, _|].
    by rewrite sorted_Permutation.
  - apply sorted_Permutation.
  - destruct (page_rows_spec year_ranks
                (sorted id Z.ltb (Dict.keys year_ranks)) [])
      as (rows & Hrun & Hall).
    { intros y Hy. rewrite (elem_of_sorted id Z.ltb) in Hy.
      by apply dict_get_is_Some_keys. }
    exists rows. split; [exact Hrun | exact Hall].
Qed.

Lemma page_rows_ascending_witness :
  StronglySorted Z.lt (page_years [(2022, 1); (2021, 2)])
  /\ page_years [(2022, 1); (2021, 2)] ≡ₚ Dict.keys [(2022, 1); (2021, 2)]
  /\ exists rows, page_rows [(2022, 1); (2021, 2)] = Ok rows
       /\ Forall2 (fun y row => page_row [(2022, 1); (2021, 2)] y = Ok row)
                  (page_years [(2022, 1); (2021, 2)]) rows.
Proof.
  apply page_rows_ascending. apply (bool_decide_unpack _). by vm_compute.
Defined.

(** ** Independence of the insertion order *)

(** X16. A rank is recorded exactly where a count is: for tables with
    the two known sexes, [ranks[sex][name][year]] exists if and only if
    [years[year][sex][name]] does, so a name that does not appear for a
    year and sex is omitted. *)
Theorem rank_recorded_iff_counted years :
  YearCountTable_wf years -> two_sexes years ->
  exists ranks, compute_ranks years = Ok ranks
    /\ forall year s n,
         is_Some (rank_of ranks s n year) <-> is_Some (count_of years year s n).
Proof.
  intros Hwf Hsex.
  destruct (compute_ranks_spec years Hwf Hsex) as (ranks & Hrun & _ & Hrank).
  exists ranks. split; [done|]. intros year s n. split.
  - intros [k Hk]. apply Hrank in Hk as (names & c & i & Hg & Hi & _).
    pose proof (group_wf _ _ _ _ Hwf Hg) as Hnames.
    assert (Dict.get n names = Some c) as Hc
      by (apply sorted_names_elem; eauto).
    exists c. unfold count_of. unfold group in Hg.
    destruct (Dict.get year years) as [sd|]; [|done]. simpl in Hg |- *.
    by rewrite Hg.
  - intros [c Hc]. unfold count_of in Hc.
    destruct (Dict.get year years) as [sd|] eqn:Hy; [|done]. simpl in Hc.
    destruct (Dict.get s sd) as [names|] eqn:Hs; [|done]. simpl in Hc.
    assert (group years year s = Some names) as Hg
      by (unfold group; rewrite Hy; simpl; done).
    apply sorted_names_elem in Hc as [i Hi]; [|by eapply group_wf].
    exists (1 + Z.of_nat i). apply Hrank. by exists names, c, i.
Qed.

Lemma rank_recorded_iff_counted_witness :
  exists ranks, compute_ranks scenario_years = Ok ranks
    /\ forall year s n,
         is_Some (rank_of ranks s n year)
         <-> is_Some (count_of scenario_years year s n).
Proof.
  apply rank_recorded_iff_counted;
    [apply scenario_years_wf | apply scenario_years_two_sexes].
Defined.

Lemma length_le_1_same_image {A B : Type} (f : A -> B) (b : B) (l : list A) :
  NoDup (f <$> l) -> (forall x, x ∈ l -> f x = b) -> (length l <= 1)%nat.
Proof.
  destruct l as [|x [|y l]]; simpl; [lia | lia |].
  intros Hnd Hall. exfalso.
  apply NoDup_cons in Hnd as [Hnin _]. apply Hnin.
  rewrite (Hall x), <- (Hall y);
    [apply list_elem_of_here
    | apply list_elem_of_further, list_elem_of_here | apply list_elem_of_here].
Qed.

Lemma Permutation_length_le_1 {A : Type} (l1 l2 : list A) :
  l1 ≡ₚ l2 -> (length l1 <= 1)%nat -> l1 = l2.
Proof.
  destruct l1 as [|x [|y l1]]; simpl; intros Hperm Hlen; [| |lia].
  - by apply Permutation_nil_l in Hperm.
  - by apply Permutation_singleton_l in Hperm.
Qed.

Lemma qualifying_filter_order_independent last_year prev_year s
    (by_name1 by_name2 : Dict.t string (Dict.t Z Z)) k :
  Dict.wf by_name1 -> by_name1 ≡ₚ by_name2 ->
  filter (has_key trend_key k) (qualifying last_year prev_year s by_name1)
  = filter (has_key trend_key k) (qualifying last_year prev_year s by_name2).
Proof.
  intros Hwf Hperm. apply Permutation_length_le_1.
  - unfold qualifying, Dict.items. by rewrite Hperm.
  - apply (length_le_1_same_image name k.2).
    + eapply sublist_NoDup; [by apply qualifying_names_NoDup|].
      apply fmap_sublist, sublist_filter.
    + intros e He. apply list_elem_of_filter in He as [He _].
      unfold has_key, trend_key in He. by rewrite <- He.
Qed.

Lemma year_occurs_order_independent ranks1 ranks2 y :
  Dict.wf ranks1 -> RankTable_wf ranks1 -> RankTable_wf ranks2 ->
  (forall s by_name1 by_name2,
     Dict.get s ranks1 = Some by_name1 -> Dict.get s ranks2 = Some by_name2 ->
     by_name1 ≡ₚ by_name2) ->
  year_occurs ranks1 y -> year_occurs ranks2 y.
Proof.
  intros Hw1 [Hk1 _] [Hk2 _] Hperm (s & bn & n & yr & Hs & Hn & Hy).
  apply (dict_elem_get _ _ _ Hw1) in Hs.
  destruct (proj2 (Hk2 s)) as [bn2 Hs2]; [apply Hk1; eauto|].
  exists s, bn2, n, yr. split_and!; [by apply dict_get_Some_elem | | done].
  by rewrite <- (Hperm _ _ _ Hs Hs2).
Qed.

(** X17. The trending list does not depend on the order in which the
    names stand in the rank table: two tables that hold, under each sex,
    the same names with the same ranks give the same list. *)
Theorem calculate_trending_order_independent ranks1 ranks2 top_n :
  Dict.wf ranks1 -> Dict.wf ranks2 ->
  RankTable_wf ranks1 -> RankTable_wf ranks2 ->
  (forall s by_name1 by_name2,
     Dict.get s ranks1 = Some by_name1 -> Dict.get s ranks2 = Some by_name2 ->
     by_name1 ≡ₚ by_name2) ->
  calculate_trending ranks1 top_n = calculate_trending ranks2 top_n.
Proof.
  intros Hw1 Hw2 Hwf1 Hwf2 Hperm.
  assert (all_years ranks1 = all_years ranks2) as Hyears.
  { apply set_eq. intros y. rewrite !elem_of_all_years. split.
    - by apply year_occurs_order_independent.
    - apply year_occurs_order_independent; try done.
      intros s b2 b1 H2 H1. symmetry. by eapply Hperm. }
  unfold calculate_trending. rewrite Hyears.
  destruct (bool_decide (size (all_years ranks2) < 2)%nat); [done|].
  destruct (py_max (elements (all_years ranks2))) as [last|]; [|done]. simpl.
  destruct (py_max (filter _ _)) as [prev|]; [|done]. simpl.
  destruct Hwf1 as [Hk1 Hn1], Hwf2 as [Hk2 Hn2].
  destruct (proj2 (Hk1 "M")) as [m1 Hm1]; [by left|].
  destruct (proj2 (Hk1 "F")) as [f1 Hf1]; [by right|].
  destruct (proj2 (Hk2 "M")) as [m2 Hm2]; [by left|].
  destruct (proj2 (Hk2 "F")) as [f2 Hf2]; [by right|].
  rewrite (proj2 (trending_candidates_Ok ranks1 last prev
                    (qualifying last prev "M" m1 ++ qualifying last prev "F" f1)))
    by (by exists m1, f1).
  rewrite (proj2 (trending_candidates_Ok ranks2 last prev
                    (qualifying last prev "M" m2 ++ qualifying last prev "F" f2)))
    by (by exists m2, f2).
  simpl. do 2 f_equal.
  apply (stable_sort_unique trend_key key3_ltb);
    [apply sorted_StronglySorted, _ | apply sorted_StronglySorted, _ |].
  intros k. rewrite !(sorted_stable trend_key key3_ltb), !filter_app.
  f_equal; apply qualifying_filter_order_independent; eauto.
Qed.

Lemma calculate_trending_order_independent_witness :
  calculate_trending scenario_ranks 10
  = calculate_trending scenario_ranks_reordered 10.
Proof.
  assert (RankTable_wf scenario_ranks_reordered) as Hwf.
  { split.
    - intros s. unfold scenario_ranks_reordered; simpl.
      repeat case_decide; subst; split; intros Hs; eauto;
        solve [by destruct Hs as [? [=]] | by destruct Hs].
    - intros s by_name. unfold scenario_ranks_reordered; simpl.
      repeat case_decide; intros [= <-];
        apply (bool_decide_unpack _); by vm_compute. }
  apply calculate_trending_order_independent;
    [apply (bool_decide_unpack _); by vm_compute
    | apply (bool_decide_unpack _); by vm_compute
    | apply scenario_ranks_wf | exact Hwf |].
  intros s b1 b2. unfold scenario_ranks, scenario_ranks_reordered; simpl.
  repeat case_decide; intros [= <-] [= <-]; [apply Permutation_swap | done].
Defined.
